(** * Proteus HTTP server: server set-up and connection handling

    A shallow embedding of the server part of the [http] package
    (the [HttpServer] methods [Static], [Listen], [handleClient], [Get],
    [Head], [Post] and the package helpers [getContentType],
    [getDefaultPort], [getServerDefaults], [getHighestVersion],
    [getAllVersions], [getAllowedMethods], [isMethodAllowed],
    [getResponseVersion], [newRequest], [newResponse], [newRouter],
    [NewServer]),
    together with the properties the specification states about them.

    Go strings are byte strings: they are modelled by [string], one [ascii]
    per byte.  The package-level tables ([Versions], [AllowedContentTypes],
    [ServerDefaults]) are Go maps and are modelled by [gmap].  The case
    tables of Unicode, which [strings.ToUpper] and [strings.ToLower] read
    for a string that is not ASCII, are a parameter. *)

From Stdlib Require Import ZArith NArith Ascii String List Bool Lia.
From Stdlib Require Import DecimalString.
From Stdlib Require DecimalPos DecimalN.
From stdpp Require Import base option list strings gmap fin_maps.

Local Open Scope string_scope.
Local Open Scope Z_scope.

(** ** Go's [unicode] package *)

Module Unicode.

(** The case tables of package [unicode], [unicode.CaseRanges], as the two
    mappings that [unicode.To] reads from them: the upper case and the
    lower case of a rune.  The tables belong to the Go library and not to
    the sources at hand: every definition and result below is parametric
    in them. *)
Class CaseRanges : Type := {
  To_UpperCase : Z -> Z;
  To_LowerCase : Z -> Z
}.

(** [unicode.ToUpper] and [unicode.ToLower]: the runes up to [MaxASCII]
    are mapped without the tables. *)
Definition MaxASCII : Z := 127.

Definition ToUpper `{CaseRanges} (r : Z) : Z :=
  if r <=? MaxASCII then
    if (97 <=? r) && (r <=? 122) then r - 32 else r
  else To_UpperCase r.

Definition ToLower `{CaseRanges} (r : Z) : Z :=
  if r <=? MaxASCII then
    if (65 <=? r) && (r <=? 90) then r + 32 else r
  else To_LowerCase r.

End Unicode.

(** ** Go's [strings] package *)

Module Str.

(** The numeric value of a byte. *)
Definition code (c : ascii) : N := N_of_ascii c.

Definition byte_in (lo hi : N) (c : ascii) : bool :=
  ((lo <=? code c) && (code c <=? hi))%N.

Definition byte_is (n : N) (c : ascii) : bool := (code c =? n)%N.

(** [asciiSpace]: the bytes tab, line feed, vertical tab, form feed,
    carriage return and space. *)
Definition asciiSpace (c : ascii) : bool :=
  byte_in 9 13 c || byte_is 32 c.

(** The two-byte UTF-8 encodings of white space: U+0085 and U+00A0. *)
Definition space2 (b1 b2 : ascii) : bool :=
  byte_is 194 b1 && (byte_is 133 b2 || byte_is 160 b2).

(** The three-byte UTF-8 encodings of white space: U+1680, U+2000..U+200A,
    U+2028, U+2029, U+202F, U+205F and U+3000. *)
Definition space3 (b1 b2 b3 : ascii) : bool :=
  (byte_is 225 b1 && byte_is 154 b2 && byte_is 128 b3)
  || (byte_is 226 b1 && byte_is 128 b2
      && (byte_in 128 138 b3 || byte_is 168 b3 || byte_is 169 b3
          || byte_is 175 b3))
  || (byte_is 226 b1 && byte_is 129 b2 && byte_is 159 b3)
  || (byte_is 227 b1 && byte_is 128 b2 && byte_is 128 b3).

(** [TrimLeftFunc(s, unicode.IsSpace)]: drop the leading white-space runes.
    A byte that does not start one of the encodings above decodes to a rune
    that is not white space, and stops the scan. *)
Fixpoint TrimLeftSpace (s : string) : string :=
  match s with
  | EmptyString => EmptyString
  | String b1 r1 =>
      if asciiSpace b1 then TrimLeftSpace r1
      else match r1 with
           | EmptyString => s
           | String b2 r2 =>
               if space2 b1 b2 then TrimLeftSpace r2
               else match r2 with
                    | EmptyString => s
                    | String b3 r3 =>
                        if space3 b1 b2 b3 then TrimLeftSpace r3 else s
                    end
           end
  end.

(** The same scan from the end of the string, on the reversed bytes: the
    last rune is decoded from the nearest start byte before the end. *)
Fixpoint dropSpaceRev (s : string) : string :=
  match s with
  | EmptyString => EmptyString
  | String b1 r1 =>
      if asciiSpace b1 then dropSpaceRev r1
      else match r1 with
           | EmptyString => s
           | String b2 r2 =>
               if space2 b2 b1 then dropSpaceRev r2
               else match r2 with
                    | EmptyString => s
                    | String b3 r3 =>
                        if space3 b3 b2 b1 then dropSpaceRev r3 else s
                    end
           end
  end.

Definition rev_string (s : string) : string :=
  string_of_list_ascii (rev (list_ascii_of_string s)).

Definition TrimRightSpace (s : string) : string :=
  rev_string (dropSpaceRev (rev_string s)).

(** [strings.TrimSpace]: all leading and trailing white space removed, as
    defined by Unicode. *)
Definition TrimSpace (s : string) : string :=
  TrimRightSpace (TrimLeftSpace s).

(** ASCII case mapping of one byte. *)
Definition upper_byte (c : ascii) : ascii :=
  if byte_in 97 122 c then ascii_of_N (code c - 32) else c.

Definition lower_byte (c : ascii) : ascii :=
  if byte_in 65 90 c then ascii_of_N (code c + 32) else c.

Fixpoint map_bytes (f : ascii -> ascii) (s : string) : string :=
  match s with
  | EmptyString => EmptyString
  | String c r => String (f c) (map_bytes f r)
  end.

(** Strings all of whose bytes are below [utf8.RuneSelf]. *)
Fixpoint isASCII (s : string) : bool :=
  match s with
  | EmptyString => true
  | String c r => (code c <? 128)%N && isASCII r
  end.

(** *** UTF-8

    [utf8.DecodeRuneInString] and [utf8.AppendRune]: a rune is a number, a
    byte that starts no valid encoding decodes as [RuneError] of width 1. *)

Definition RuneError : Z := 65533.

Definition rune_of (c : ascii) : Z := Z.of_N (code c).
Definition byte_of (z : Z) : ascii := ascii_of_N (Z.to_N z).

(** [first]: for a byte that starts an encoding of several bytes, the
    size of the encoding and the range accepted for its second byte. *)
Definition first (s0 : ascii) : option (nat * N * N) :=
  let c := code s0 in
  if (c <? 194)%N then None
  else if (c <=? 223)%N then Some (2%nat, 128%N, 191%N)
  else if (c =? 224)%N then Some (3%nat, 160%N, 191%N)
  else if (c <=? 236)%N then Some (3%nat, 128%N, 191%N)
  else if (c =? 237)%N then Some (3%nat, 128%N, 159%N)
  else if (c <=? 239)%N then Some (3%nat, 128%N, 191%N)
  else if (c =? 240)%N then Some (4%nat, 144%N, 191%N)
  else if (c <=? 243)%N then Some (4%nat, 128%N, 191%N)
  else if (c =? 244)%N then Some (4%nat, 128%N, 143%N)
  else None.

(** The six bits of a continuation byte. *)
Definition cont (c : ascii) : Z := Z.land (rune_of c) 63.

Definition DecodeRuneInString (s : string) : Z * nat :=
  match s with
  | EmptyString => (RuneError, 0%nat)
  | String s0 r0 =>
      if (code s0 <? 128)%N then (rune_of s0, 1%nat)
      else
        match first s0 with
        | None => (RuneError, 1%nat)
        | Some (sz, lo, hi) =>
            if (String.length s <? sz)%nat then (RuneError, 1%nat)
            else
              match r0 with
              | EmptyString => (RuneError, 1%nat)
              | String s1 r1 =>
                  if negb (byte_in lo hi s1) then (RuneError, 1%nat)
                  else if (sz <=? 2)%nat then
                    (Z.lor (Z.shiftl (Z.land (rune_of s0) 31) 6) (cont s1),
                     2%nat)
                  else
                    match r1 with
                    | EmptyString => (RuneError, 1%nat)
                    | String s2 r2 =>
                        if negb (byte_in 128 191 s2) then (RuneError, 1%nat)
                        else if (sz <=? 3)%nat then
                          (Z.lor (Z.shiftl (Z.land (rune_of s0) 15) 12)
                             (Z.lor (Z.shiftl (cont s1) 6) (cont s2)),
                           3%nat)
                        else
                          match r2 with
                          | EmptyString => (RuneError, 1%nat)
                          | String s3 _ =>
                              if negb (byte_in 128 191 s3)
                              then (RuneError, 1%nat)
                              else
                                (Z.lor (Z.shiftl (Z.land (rune_of s0) 7) 18)
                                   (Z.lor (Z.shiftl (cont s1) 12)
                                      (Z.lor (Z.shiftl (cont s2) 6)
                                         (cont s3))),
                                 4%nat)
                          end
                    end
              end
        end
  end.

(** A continuation byte of the encoding of [r]. *)
Definition tail_byte (r : Z) (shift : Z) : ascii :=
  byte_of (Z.lor 128 (Z.land (Z.shiftr r shift) 63)).

(** The bytes that [utf8.AppendRune] appends: a rune out of range or a
    surrogate is written as [RuneError]. *)
Definition AppendRune (r : Z) : string :=
  if r <=? 127 then String (byte_of r) ""
  else if r <=? 2047 then
    String (byte_of (Z.lor 192 (Z.shiftr r 6))) (String (tail_byte r 0) "")
  else
    let r := if (1114111 <? r) || ((55296 <=? r) && (r <=? 57343))
             then RuneError else r in
    if r <=? 65535 then
      String (byte_of (Z.lor 224 (Z.shiftr r 12)))
        (String (tail_byte r 6) (String (tail_byte r 0) ""))
    else
      String (byte_of (Z.lor 240 (Z.shiftr r 18)))
        (String (tail_byte r 12)
           (String (tail_byte r 6) (String (tail_byte r 0) ""))).

(** [strings.Map]: every rune of the string, decoded as above, is replaced
    by its image, and dropped when the image is negative.  Go returns the
    string itself when no rune changes and every rune is validly encoded,
    which are the same bytes: a valid encoding is the one that
    [AppendRune] writes. *)
Fixpoint Map (mapping : Z -> Z) (s : string) : string :=
  match s with
  | EmptyString => EmptyString
  | String _ r0 =>
      let '(c, width) := DecodeRuneInString s in
      let r := mapping c in
      (if 0 <=? r then AppendRune r else EmptyString)
      +:+ match width, r0 with
          | 2%nat, String _ r1 => Map mapping r1
          | 3%nat, String _ (String _ r2) => Map mapping r2
          | 4%nat, String _ (String _ (String _ r3)) => Map mapping r3
          | _, _ => Map mapping r0
          end
  end.

(** [strings.ToUpper] and [strings.ToLower]: a string of ASCII bytes is
    mapped byte by byte, any other string rune by rune through
    [unicode.ToUpper] and [unicode.ToLower]. *)
Section Case.
Context `{Unicode.CaseRanges}.

Definition ToUpper (s : string) : string :=
  if isASCII s then map_bytes upper_byte s else Map Unicode.ToUpper s.

Definition ToLower (s : string) : string :=
  if isASCII s then map_bytes lower_byte s else Map Unicode.ToLower s.

End Case.

(** [strings.EqualFold]: equality under case folding.  The folding is the
    one of the ASCII letters, byte by byte.  This is what Go computes
    whenever both strings are ASCII, and whenever one of them is ASCII and
    holds none of the letters k and s in either case, the only ASCII
    letters that Unicode folds with a rune outside ASCII: so for every
    string compared with a version written in digits and points. *)
Fixpoint EqualFold (s t : string) : bool :=
  match s, t with
  | EmptyString, EmptyString => true
  | String a s', String b t' =>
      Ascii.eqb (lower_byte a) (lower_byte b) && EqualFold s' t'
  | _, _ => false
  end.

(** [strings.Join]. *)
Fixpoint Join (l : list string) (sep : string) : string :=
  match l with
  | [] => ""
  | [x] => x
  | x :: r => x +:+ sep +:+ Join r sep
  end.

End Str.

(** ** Go's [strconv] and [fmt] packages *)

Module Strconv.
Import Str.

Local Open Scope N_scope.

Definition is_digit (c : ascii) : bool := byte_in 48 57 c.
Definition digit_val (c : ascii) : N := code c - 48.

(** [lower(c)] of the package: the byte with bit 5 set. *)
Definition lower (c : ascii) : N := N.lor (code c) 32.

Definition is_hex_letter (c : ascii) : bool :=
  (97 <=? lower c) && (lower c <=? 102).
Definition hex_letter_val (c : ascii) : N := lower c - 97 + 10.

Definition is_sign (c : ascii) : bool := byte_is 43 c || byte_is 45 c.

(** *** [Atoi]

    The result is the pair of the value and of whether an error is
    returned.  [int] has 64 bits. *)

(** The digit loop of [ParseUint] in base 10 with 64 bits: an invalid byte
    gives [(0, err)]; as soon as the value no longer fits in [uint64] the
    loop stops with [(maxVal, err)], the bytes after that unread. *)
Fixpoint parseUintLoop (s : string) (n : N) : N * bool :=
  match s with
  | EmptyString => (n, false)
  | String c r =>
      if is_digit c then
        let n1 := n * 10 + digit_val c in
        if 2 ^ 64 - 1 <? n1 then (2 ^ 64 - 1, true) else parseUintLoop r n1
      else (0, true)
  end.

Definition ParseUint (s : string) : N * bool :=
  match s with
  | EmptyString => (0, true)
  | _ => parseUintLoop s 0
  end.

(** [ParseInt(s, 10, 0)]: a syntax error gives 0, a value out of range is
    replaced by the nearest bound of [int64]. *)
Definition ParseInt (s : string) : Z * bool :=
  match s with
  | EmptyString => (0%Z, true)
  | String c r =>
      let neg := byte_is 45 c in
      let body := if is_sign c then r else s in
      let '(un, err) := ParseUint body in
      if err && negb (un =? 2 ^ 64 - 1) then (0%Z, true)
      else if negb neg && (2 ^ 63 <=? un) then ((2 ^ 63 - 1)%Z, true)
      else if neg && (2 ^ 63 <? un) then ((- 2 ^ 63)%Z, true)
      else ((if neg then - Z.of_N un else Z.of_N un)%Z, err)
  end.

(** The loop of the fast path of [Atoi], taken by strings of 1 to 18
    bytes. *)
Fixpoint atoiFast (s : string) (n : N) : option N :=
  match s with
  | EmptyString => Some n
  | String c r =>
      if is_digit c then atoiFast r (n * 10 + digit_val c) else None
  end.

Definition Atoi (s : string) : Z * bool :=
  let sLen := String.length s in
  if (Nat.ltb 0 sLen && Nat.ltb sLen 19)%bool then
    match s with
    | EmptyString => (0%Z, true)
    | String c r =>
        let body := if is_sign c then r else s in
        match body with
        | EmptyString => (0%Z, true)
        | _ =>
            match atoiFast body 0 with
            | None => (0%Z, true)
            | Some n =>
                ((if byte_is 45 c then - Z.of_N n else Z.of_N n)%Z, false)
            end
        end
    end
  else ParseInt s.

(** *** [float64]

    A finite binary64 number is a multiple of [2^-1074]: [Fin neg u] is
    the number of magnitude [u * 2^-1074], negative when [neg] is set.
    [u] has at most 53 significant bits and is below [2^2098]. *)
Inductive float64 : Type :=
  | NaN
  | Inf (neg : bool)
  | Fin (neg : bool) (u : N).

(** The position of a [float64] among the ordered ones: the infinities
    below and above every finite number; [NaN] has none. *)
Definition rank (f : float64) : option (Z * Z) :=
  match f with
  | NaN => None
  | Inf false => Some (1, 0)%Z
  | Inf true => Some (-1, 0)%Z
  | Fin false u => Some (0, Z.of_N u)%Z
  | Fin true u => Some (0, - Z.of_N u)%Z
  end.

(** The comparison [a > b] of Go: false as soon as one side is [NaN]. *)
Definition fgt (a b : float64) : bool :=
  match rank a, rank b with
  | Some (i, x), Some (j, y) => ((j <? i) || ((j =? i) && (y <? x)))%Z
  | _, _ => false
  end.

(** Rounding of the fraction [num / den] to the nearest integer, ties to
    even. *)
Definition rne (num den : N) : N :=
  let q := num / den in
  match (2 * (num mod den)) ?= den with
  | Lt => q
  | Gt => q + 1
  | Eq => if N.even q then q else q + 1
  end.

(** Rounding of [num / den], a number of units of [2^-1074], to the
    nearest number of units with at most 53 significant bits. *)
Definition round64 (num den : N) : N :=
  let fl := num / den in
  if fl <? 2 ^ 53 then rne num den
  else let s := N.log2 fl - 52 in rne num (den * 2 ^ s) * 2 ^ s.

(** The rounded value, or [None] when it is beyond the largest
    [float64] (Go returns an infinity and [ErrRange]). *)
Definition to_float64 (neg : bool) (num den : N) : option float64 :=
  let u := round64 num den in
  if u <? 2 ^ 2098 then Some (Fin neg u) else None.

(** *** [ParseFloat]

    [ParseFloat(s, 64)] returns the [float64] nearest to the number that
    [s] denotes, with an error when [s] is not a floating-point literal or
    when the number is out of range.  [None] stands for a returned error:
    the callers below only test [err == nil]. *)

(** [special]: [NaN], and the optionally signed [Inf] and [Infinity], in any
    letter case. *)
Definition special (s : string) : option float64 :=
  if String.eqb (map_bytes lower_byte s) "nan" then Some NaN
  else
    match s with
    | EmptyString => None
    | String c r =>
        let body := if is_sign c then r else s in
        let l := map_bytes lower_byte body in
        if String.eqb l "inf" || String.eqb l "infinity"
        then Some (Inf (byte_is 45 c))
        else None
    end.

(** The state of the mantissa loop of [readFloat]: the digits read so far
    as a number, how many of them came after the point, and the flags of
    the loop. *)
Record mant : Type := Mant {
  mval : N;
  mfrac : N;
  sawdot : bool;
  sawdigits : bool;
  underscores : bool
}.

Definition add_digit (base d : N) (m : mant) : mant :=
  Mant (mval m * base + d) (if sawdot m then mfrac m + 1 else mfrac m)
       (sawdot m) true (underscores m).

(** The mantissa loop: it stops at a second point and at the first byte
    that is no digit of the base, and returns the unread bytes. *)
Fixpoint readMant (hex : bool) (s : string) (m : mant) : mant * string :=
  match s with
  | EmptyString => (m, s)
  | String c r =>
      if byte_is 95 c then
        readMant hex r (Mant (mval m) (mfrac m) (sawdot m) (sawdigits m) true)
      else if byte_is 46 c then
        if sawdot m then (m, s)
        else readMant hex r
               (Mant (mval m) (mfrac m) true (sawdigits m) (underscores m))
      else if is_digit c then
        readMant hex r (add_digit (if hex then 16 else 10) (digit_val c) m)
      else if hex && is_hex_letter c then
        readMant hex r (add_digit 16 (hex_letter_val c) m)
      else (m, s)
  end.

(** The digits of the exponent; the exponent stops growing once it has
    reached 10000.  Returns the exponent, whether an underscore was read,
    and the unread bytes. *)
Fixpoint readExpDigits (s : string) (e : N) (us : bool) : N * bool * string :=
  match s with
  | EmptyString => (e, us, s)
  | String c r =>
      if is_digit c then
        readExpDigits r (if e <? 10000 then e * 10 + digit_val c else e) us
      else if byte_is 95 c then readExpDigits r e true
      else (e, us, s)
  end.

(** The optional exponent after the mantissa, introduced by [expChar] in
    either case; [None] when it is started and malformed. *)
Definition readExp (expChar : N) (s : string)
  : option (option Z * bool * string) :=
  match s with
  | EmptyString => Some (None, false, s)
  | String c r =>
      if lower c =? expChar then
        match r with
        | EmptyString => None
        | String c1 r1 =>
            let body := if is_sign c1 then r1 else r in
            match body with
            | EmptyString => None
            | String d _ =>
                if is_digit d then
                  let '(e, us, rest) := readExpDigits body 0 false in
                  Some (Some (if byte_is 45 c1 then - Z.of_N e
                              else Z.of_N e)%Z, us, rest)
                else None
            end
        end
      else Some (None, false, s)
  end.

(** [underscoreOK]: an underscore stands only between two digits, or
    between a base prefix and a digit. *)
Inductive saw : Type := SawStart | SawDigit | SawUnderscore | SawOther.

Fixpoint underscoreLoop (hex : bool) (s : string) (w : saw) : bool :=
  match s with
  | EmptyString => match w with SawUnderscore => false | _ => true end
  | String c r =>
      if is_digit c || (hex && is_hex_letter c) then underscoreLoop hex r SawDigit
      else if byte_is 95 c then
        match w with
        | SawDigit => underscoreLoop hex r SawUnderscore
        | _ => false
        end
      else
        match w with
        | SawUnderscore => false
        | _ => underscoreLoop hex r SawOther
        end
  end.

Definition underscoreOK (s : string) : bool :=
  let s1 := match s with
            | String c r => if is_sign c then r else s
            | EmptyString => s
            end in
  match s1 with
  | String c0 (String c1 r) =>
      if byte_is 48 c0
         && ((lower c1 =? 98) || (lower c1 =? 111) || (lower c1 =? 120))
      then underscoreLoop (lower c1 =? 120) r SawDigit
      else underscoreLoop false s1 SawStart
  | _ => underscoreLoop false s1 SawStart
  end.

(** The number [m * 10^e10 * 2^e2] as a fraction of units of [2^-1074]. *)
Definition scaled (m : N) (e10 e2 : Z) : N * N :=
  let e2' := (e2 + 1074)%Z in
  (m * 10 ^ Z.to_N e10 * 2 ^ Z.to_N e2',
   10 ^ Z.to_N (- e10) * 2 ^ Z.to_N (- e2')).

(** [readFloat] followed by the conversion: sign, base prefix, mantissa,
    exponent; the whole string has to be read. *)
Definition readFloat (s : string) : option float64 :=
  match s with
  | EmptyString => None
  | String c r =>
      let neg := byte_is 45 c in
      let s1 := if is_sign c then r else s in
      let '(hex, s2) :=
        match s1 with
        | String c0 (String c1 (String c2 r2)) =>
            if byte_is 48 c0 && (lower c1 =? 120)
            then (true, String c2 r2) else (false, s1)
        | _ => (false, s1)
        end in
      let '(m, s3) := readMant hex s2 (Mant 0 0 false false false) in
      if negb (sawdigits m) then None
      else
        match readExp (if hex then 112 else 101) s3 with
        | None => None
        | Some (e, us, rest) =>
            match rest with
            | String _ _ => None
            | EmptyString =>
                if (underscores m || us) && negb (underscoreOK s) then None
                else
                  match hex, e with
                  | true, None => None
                  | true, Some e =>
                      let '(num, den) :=
                        scaled (mval m) 0 (e - 4 * Z.of_N (mfrac m)) in
                      to_float64 neg num den
                  | false, _ =>
                      let e := match e with Some e => e | None => 0%Z end in
                      let '(num, den) :=
                        scaled (mval m) (e - Z.of_N (mfrac m)) 0 in
                      to_float64 neg num den
                  end
            end
        end
  end.

Definition ParseFloat (s : string) : option float64 :=
  match special s with
  | Some f => Some f
  | None => readFloat s
  end.

(** *** [fmt.Sprintf("%.1f", f)]

    The decimal expansion of [f] rounded to one digit after the point,
    ties to even; a sign only when [f] is negative or infinite. *)
Definition N_to_string (n : N) : string :=
  NilEmpty.string_of_uint (N.to_uint n).

(** [strconv.Itoa]. *)
Definition Itoa (z : Z) : string :=
  match z with
  | Zneg p => ("-" +:+ N_to_string (Npos p))%string
  | _ => N_to_string (Z.to_N z)
  end.

Definition Sprintf_1f (f : float64) : string :=
  match f with
  | NaN => "NaN"
  | Inf false => "+Inf"
  | Inf true => "-Inf"
  | Fin neg u =>
      let t := rne (10 * u) (2 ^ 1074) in
      ((if neg then "-" else "") +:+ N_to_string (t / 10) +:+ "."
       +:+ N_to_string (t mod 10))%string
  end.

End Strconv.

(** ** [path/filepath] *)

Module Filepath.
Import Str.

(** The loop of [Ext] on the reversed path: [acc] holds the bytes already
    passed, in their original order.  The scan stops at a path separator
    (the slash). *)
Fixpoint extRev (rev_path : string) (acc : string) : string :=
  match rev_path with
  | EmptyString => ""
  | String c r =>
      if byte_is 47 c then ""
      else if byte_is 46 c then String c acc
      else extRev r (String c acc)
  end.

(** [filepath.Ext]: the suffix beginning at the final dot in the final
    element of the path, empty when there is no dot. *)
Definition Ext (path : string) : string := extRev (rev_string path) "".

End Filepath.

(** ** The package tables *)

(** The package-level variables [Versions], [AllowedContentTypes] and
    [ServerDefaults].  Their declarations and contents are not part of the
    sources at hand: every definition and result below is parametric in
    them. *)
Class Tables : Type := {
  Versions : gmap string (list string);
  AllowedContentTypes : gmap string string;
  ServerDefaults : gmap string string
}.

(** Indexing a Go map whose values are strings: the empty string for an
    absent key. *)
Definition index (m : gmap string string) (k : string) : string :=
  default "" (m !! k).

(** ** The file-system collaborator *)

(** Modelled from the spec: the path types of package [fs], whose sources
    are absent; "given a path, reports whether it denotes a regular file,
    directory, or neither". *)
Inductive PathType : Type := FILE_TYPE_PATH | DIR_TYPE_PATH.

Definition error : Type := string.

(** What [fs.GetPathType] answers for each path: a path type or an
    error. *)
Definition FileSystem : Type := string -> PathType + error.

(** ** Helpers of the package *)

Section Helpers.
Context `{Tables} `{Unicode.CaseRanges}.
Import Str Strconv.

(** Returns the file media type for the given file path. *)
Definition getContentType (GetPathType : FileSystem)
    (CompleteFilePath : string) : string * bool :=
  match GetPathType CompleteFilePath with
  | inl FILE_TYPE_PATH =>
      let fileExtension := Filepath.Ext CompleteFilePath in
      let fileExtension := TrimSpace fileExtension in
      let fileExtension := ToLower fileExtension in
      match AllowedContentTypes !! fileExtension with
      | Some contentType => (contentType, true)
      | None => (TrimSpace (index ServerDefaults "content_type"), true)
      end
  | _ => ("", false)
  end.

(** Returns the default port number; the error of [Atoi] is dropped. *)
Definition getDefaultPort : Z :=
  let portNumberValue := index ServerDefaults "port" in
  fst (Atoi portNumberValue).

(** Returns the value for the given key from the server defaults. *)
Definition getServerDefaults (key : string) : string :=
  let value := index ServerDefaults (TrimSpace key) in
  TrimSpace value.

(** One iteration of the loop of [getHighestVersion]. *)
Definition highestStep (maxVersion : float64) (versionNo : string) : float64 :=
  match ParseFloat versionNo with
  | Some currentVersion =>
      if fgt currentVersion maxVersion then currentVersion else maxVersion
  | None => maxVersion
  end.

(** The keys of [Versions] in the order in which a [range] loop visits
    them.  Go leaves that order unspecified; the results below hold for
    any order. *)
Definition versionKeys : list string := (map_to_list Versions).*1.

(** Gets the highest version of HTTP supported by the web server. *)
Definition getHighestVersion : string :=
  let maxVersion := foldl highestStep (Fin false 0) versionKeys in
  Sprintf_1f maxVersion.

(** Gets all the versions of HTTP supported by the web server. *)
Definition getAllVersions : list string := TrimSpace <$> versionKeys.

(** Gets the list of allowed HTTP methods for the given HTTP version. *)
Definition getAllowedMethods (version : string) : string :=
  match List.find (fun e : string * list string => EqualFold e.1 version)
                  (map_to_list Versions) with
  | Some (_, AllowedMethods) => Join AllowedMethods ", "
  | None => ""
  end.

(** Checks if the given HTTP method is supported for the given version. *)
Definition isMethodAllowed (version requestMethod : string) : bool :=
  existsb (fun e : string * list string =>
             EqualFold e.1 version && bool_decide (requestMethod ∈ e.2))
          (map_to_list Versions).

(** Returns the HTTP response version for the given request version. *)
Definition getResponseVersion (requestVersion : string) : string :=
  let isCompatible :=
    existsb (fun version => EqualFold version requestVersion) getAllVersions in
  if isCompatible then requestVersion else getHighestVersion.

End Helpers.

(** ** The data model *)

(** A route handler is a Go function value; it is known by a name only, and
    calling it is an operation of the environment. *)
Definition Handler : Type := nat.

(** A [net.Conn]: the connection and the address of its remote end. *)
Record Conn : Type := {
  conn_id : nat;
  RemoteAddr : string
}.

(** A [net.Listener], a [bufio.Reader] and a [bufio.Writer]. *)
Definition Listener : Type := nat.
Definition Reader : Type := nat.
Definition Writer : Type := nat.

Module Request.
(** Modelled from the spec: the type [HttpRequest], whose declaration is
    absent; "method, rawPath, version, headers, segments, bodyReader". *)
Record HttpRequest : Type := {
  Method : string;
  ResourcePath : string;
  Version : string;
  Headers : list (string * string);
  Segments : list (string * list string);
  reader : option Reader
}.

(** Modelled from the spec: the absent method [initialize]; a request is
    created empty and filled by the parse. *)
Definition initialize : HttpRequest :=
  {| Method := ""; ResourcePath := ""; Version := ""; Headers := [];
     Segments := []; reader := None |}.

(** Modelled from the spec: the absent method [setReader]. *)
Definition setReader (rd : Reader) (r : HttpRequest) : HttpRequest :=
  {| Method := Method r; ResourcePath := ResourcePath r;
     Version := Version r; Headers := Headers r; Segments := Segments r;
     reader := Some rd |}.
End Request.

Module Response.
(** Modelled from the spec: the type [HttpResponse], whose declaration is
    absent; "version, statusCode, statusText, headers, bodyWriter,
    headersSent".  The status text is a function of the status code and is
    not kept; no status code is set at creation. *)
Record HttpResponse : Type := {
  Version : string;
  StatusCode : option Z;
  Headers : list (string * string);
  writer : option Writer;
  headersSent : bool
}.

(** Modelled from the spec: the absent method [initialize]; a response is
    "created after a request is parsed, using the negotiated response
    version". *)
Definition initialize (version : string) : HttpResponse :=
  {| Version := version; StatusCode := None; Headers := []; writer := None;
     headersSent := false |}.

(** Modelled from the spec: the absent method [setWriter]. *)
Definition setWriter (wr : Writer) (r : HttpResponse) : HttpResponse :=
  {| Version := Version r; StatusCode := StatusCode r; Headers := Headers r;
     writer := Some wr; headersSent := headersSent r |}.

(** Modelled from the spec: the absent method [Status]; "sets the status
    code and derives the canonical status text". *)
Definition Status (code : Z) (r : HttpResponse) : HttpResponse :=
  {| Version := Version r; StatusCode := Some code; Headers := Headers r;
     writer := writer r; headersSent := headersSent r |}.
End Response.

Abbreviation HttpRequest := Request.HttpRequest.
Abbreviation HttpResponse := Response.HttpResponse.

(** Modelled from the spec: the status constants, whose declaration is
    absent; "set status 405", "set status 404". *)
Definition StatusMethodNotAllowed : Z := 405.
Definition StatusNotFound : Z := 404.

(** Modelled from the spec: a static-file mapping, "method, pathPrefix,
    targetFilesystemPath". *)
Record Route : Type := {
  RouteMethod : string;
  RoutePath : string;
  TargetPath : string
}.

(** Modelled from the spec: a node of the route tree, "segmentLiteral,
    isParameter, parameterName, mapping-from-method-to-handler,
    ordered-children". *)
#[warnings="-register-all"]
Inductive RouteTreeNode : Type :=
  TreeNode (segmentLiteral : string) (isParameter : bool)
           (parameterName : string) (handlers : list (string * Handler))
           (children : list RouteTreeNode).

(** Modelled from the spec: the absent function [createTree]; the root,
    with no handler and no child. *)
Definition createTree : RouteTreeNode := TreeNode "" false "" [] [].

(** The router, with the two fields that [newRouter] sets. *)
Record Router : Type := {
  Routes : list Route;
  RouteTree : RouteTreeNode
}.

(** Structure to create an instance of a web server. *)
Record HttpServer : Type := {
  HostAddress : string;
  PortNumber : Z;
  Socket : option Listener;
  innerRouter : Router
}.

Definition set_PortNumber (p : Z) (srv : HttpServer) : HttpServer :=
  {| HostAddress := HostAddress srv; PortNumber := p; Socket := Socket srv;
     innerRouter := innerRouter srv |}.
Definition set_HostAddress (h : string) (srv : HttpServer) : HttpServer :=
  {| HostAddress := h; PortNumber := PortNumber srv; Socket := Socket srv;
     innerRouter := innerRouter srv |}.
Definition set_Socket (l : Listener) (srv : HttpServer) : HttpServer :=
  {| HostAddress := HostAddress srv; PortNumber := PortNumber srv;
     Socket := Some l; innerRouter := innerRouter srv |}.
Definition set_innerRouter (rt : Router) (srv : HttpServer) : HttpServer :=
  {| HostAddress := HostAddress srv; PortNumber := PortNumber srv;
     Socket := Socket srv; innerRouter := rt |}.

(** ** Programs over the environment

    The server calls code that is not part of the sources at hand (the
    request parser, the router, the error handler, the logger), user code
    (the route handlers) and the network.  Each such call is an operation
    [Op]; what it answers is decided by the environment.  A program is a
    tree of operations, and running it against an environment gives its
    result and the trace of the calls it made with their answers. *)

Inductive Op : Type :=
  | NewReader (c : Conn)                      (* bufio.NewReader(c) *)
  | NewWriter (c : Conn)                      (* bufio.NewWriter(c) *)
  | Read (req : HttpRequest)                  (* req.read() *)
  | MatchRoute (rt : Router) (req : HttpRequest)    (* rt.matchRoute(req) *)
  | CallHandler (h : Handler) (req : HttpRequest) (res : HttpResponse)
  | ErrorHandler (req : HttpRequest) (res : HttpResponse)
  | LogError (msg : string)
  | LogInfo (msg : string)
  | Close (c : Conn)                          (* c.Close() *)
  | AddStaticRoute (rt : Router) (method route target : string)
  | AddDynamicRoute (rt : Router) (method route : string) (h : Handler)
  | NetListen (network address : string)      (* net.Listen *)
  | Accept (l : Listener)                     (* l.Accept() *)
  | Go (srv : HttpServer) (c : Conn).         (* go srv.handleClient(c) *)

(** The answer to an operation.  A method that updates its receiver
    answers with the receiver after the call. *)
Definition Resp (o : Op) : Type :=
  match o with
  | NewReader _ => Reader
  | NewWriter _ => Writer
  | Read _ => HttpRequest * option error
  | MatchRoute _ _ => HttpRequest * (Handler + error)
  | AddStaticRoute _ _ _ _ => Router * option error
  | AddDynamicRoute _ _ _ _ => Router * option error
  | NetListen _ _ => Listener + error
  | Accept _ => Conn + error
  | _ => unit
  end.

Inductive Prog (A : Type) : Type :=
  | Ret (a : A)
  | Do (o : Op) (k : Resp o -> Prog A).
Arguments Ret {A} a.
Arguments Do {A} o k.

Fixpoint bind {A B : Type} (p : Prog A) (f : A -> Prog B) : Prog B :=
  match p with
  | Ret a => f a
  | Do o k => Do o (fun r => bind (k r) f)
  end.

#[export] Instance Prog_ret : MRet Prog := @Ret.
#[export] Instance Prog_bind : MBind Prog := fun A B f p => bind p f.

Definition call (o : Op) : Prog (Resp o) := Do o Ret.

(** [defer]: the operation runs when the body returns, on whichever path
    it does. *)
Definition defer {A : Type} (o : Op) (body : Prog A) : Prog A :=
  a ← body; _ ← call o; mret a.

(** One call and its answer. *)
Inductive Event : Type :=
  | EvNewReader (c : Conn) (rd : Reader)
  | EvNewWriter (c : Conn) (wr : Writer)
  | EvRead (req : HttpRequest) (ans : HttpRequest * option error)
  | EvMatchRoute (rt : Router) (req : HttpRequest)
                 (ans : HttpRequest * (Handler + error))
  | EvCallHandler (h : Handler) (req : HttpRequest) (res : HttpResponse)
  | EvErrorHandler (req : HttpRequest) (res : HttpResponse)
  | EvLogError (msg : string)
  | EvLogInfo (msg : string)
  | EvClose (c : Conn)
  | EvAddStaticRoute (rt : Router) (method route target : string)
                     (ans : Router * option error)
  | EvAddDynamicRoute (rt : Router) (method route : string) (h : Handler)
                      (ans : Router * option error)
  | EvNetListen (network address : string) (ans : Listener + error)
  | EvAccept (l : Listener) (ans : Conn + error)
  | EvGo (srv : HttpServer) (c : Conn).

Definition Ev (o : Op) : Resp o -> Event :=
  match o return Resp o -> Event with
  | NewReader c => EvNewReader c
  | NewWriter c => EvNewWriter c
  | Read req => EvRead req
  | MatchRoute rt req => EvMatchRoute rt req
  | CallHandler h req res => fun _ => EvCallHandler h req res
  | ErrorHandler req res => fun _ => EvErrorHandler req res
  | LogError msg => fun _ => EvLogError msg
  | LogInfo msg => fun _ => EvLogInfo msg
  | Close c => fun _ => EvClose c
  | AddStaticRoute rt m r t => EvAddStaticRoute rt m r t
  | AddDynamicRoute rt m r h => EvAddDynamicRoute rt m r h
  | NetListen n a => EvNetListen n a
  | Accept l => EvAccept l
  | Go srv c => fun _ => EvGo srv c
  end.

(** An environment answers every operation, and may change while doing
    so. *)
Definition Env (W : Type) : Type := forall o : Op, W -> Resp o * W.

Fixpoint run {W A : Type} (env : Env W) (p : Prog A) (w : W)
  : A * W * list Event :=
  match p with
  | Ret a => (a, w, [])
  | Do o k =>
      let '(r, w1) := env o w in
      let '(a, w2, t) := run env (k r) w1 in
      (a, w2, Ev o r :: t)
  end.

Definition result {W A : Type} (env : Env W) (p : Prog A) (w : W) : A :=
  (run env p w).1.1.
Definition trace {W A : Type} (env : Env W) (p : Prog A) (w : W)
  : list Event :=
  (run env p w).2.

(** ** The server *)

Section Server.
Context `{Tables} `{Unicode.CaseRanges}.
Import Str Strconv.

(** Creates a new instance of HTTP request. *)
Definition newRequest (Connection : Conn) : Prog HttpRequest :=
  let httpRequest := Request.initialize in
  reader ← call (NewReader Connection);
  mret (Request.setReader reader httpRequest).

(** Creates a new instance of HTTP response. *)
Definition newResponse (Connection : Conn) (request : HttpRequest)
  : Prog HttpResponse :=
  let httpResponse :=
    Response.initialize (getResponseVersion (Request.Version request)) in
  writer ← call (NewWriter Connection);
  mret (Response.setWriter writer httpResponse).

(** Creates a new instance of Router. *)
Definition newRouter : Router :=
  {| Routes := []; RouteTree := createTree |}.

(** Define a static route and map it to a file or folder. *)
Definition Static (srv : HttpServer) (Route TargetPath : string)
  : Prog (option error * HttpServer) :=
  '(rt, err) ← call (AddStaticRoute (innerRouter srv) "GET" Route TargetPath);
  let srv := set_innerRouter rt srv in
  match err with
  | Some err => mret (Some err, srv)
  | None =>
      '(rt, err) ←
        call (AddStaticRoute (innerRouter srv) "HEAD" Route TargetPath);
      let srv := set_innerRouter rt srv in
      match err with
      | Some err => mret (Some err, srv)
      | None => mret (None, srv)
      end
  end.

(** The common body of [Get], [Head] and [Post]. *)
Definition addRoute (method : string) (srv : HttpServer)
    (routePath : string) (handlerFunc : Handler)
  : Prog (option error * HttpServer) :=
  let routePath := TrimSpace routePath in
  '(rt, err) ←
    call (AddDynamicRoute (innerRouter srv) method routePath handlerFunc);
  let srv := set_innerRouter rt srv in
  match err with
  | Some err => mret (Some err, srv)
  | None => mret (None, srv)
  end.

Definition Get := addRoute "GET".
Definition Head := addRoute "HEAD".
Definition Post := addRoute "POST".

(** Handles the request sent by one client. *)
Definition handleClient (srv : HttpServer) (ClientConnection : Conn)
  : Prog unit :=
  defer (Close ClientConnection) (
    httpRequest ← newRequest ClientConnection;
    '(httpRequest, err) ← call (Read httpRequest);
    match err with
    | Some err => call (LogError err)
    | None =>
        httpResponse ← newResponse ClientConnection httpRequest;
        if negb (isMethodAllowed (Response.Version httpResponse)
                   (ToUpper (TrimSpace (Request.Method httpRequest))))
        then
          let httpResponse :=
            Response.Status StatusMethodNotAllowed httpResponse in
          call (ErrorHandler httpRequest httpResponse)
        else
          '(httpRequest, routeHandler) ←
            call (MatchRoute (innerRouter srv) httpRequest);
          match routeHandler with
          | inr err =>
              _ ← call (LogError err);
              let httpResponse :=
                Response.Status StatusNotFound httpResponse in
              call (ErrorHandler httpRequest httpResponse)
          | inl routeHandler =>
              call (CallHandler routeHandler httpRequest httpResponse)
          end
    end).

(** The accept loop of [Listen].  The loop has no exit; [n] bounds the
    number of iterations that are followed. *)
Fixpoint acceptLoop (n : nat) (srv : HttpServer) (sock : Listener)
  : Prog unit :=
  match n with
  | O => mret tt
  | S n =>
      r ← call (Accept sock);
      match r with
      | inr err =>
          _ ← call (LogError
                 ("Error occurred while accepting a new client: " +:+ err));
          acceptLoop n srv sock
      | inl clientConnection =>
          _ ← call (LogInfo ("A new client - "
                 +:+ RemoteAddr clientConnection
                 +:+ " has connected to the server"));
          _ ← call (Go srv clientConnection);
          acceptLoop n srv sock
      end
  end.

(** Sets the server up to listen at the given port and host name.  The
    result is the server after the call, with whether [Listen] has
    returned: it returns when the listener cannot be set up, and otherwise
    stays in the accept loop, so that the deferred close of the socket is
    never run. *)
Definition Listen (n : nat) (srv : HttpServer) (PortNumber_ : Z)
    (HostAddress_ : string) : Prog (HttpServer * bool) :=
  let srv :=
    if PortNumber_ =? 0 then set_PortNumber getDefaultPort srv
    else set_PortNumber PortNumber_ srv in
  let srv :=
    if String.eqb HostAddress_ ""
    then set_HostAddress (getServerDefaults "hostname") srv
    else set_HostAddress (TrimSpace HostAddress_) srv in
  let serverAddress := HostAddress srv +:+ ":" +:+ Itoa (PortNumber srv) in
  r ← call (NetListen "tcp" serverAddress);
  match r with
  | inr err =>
      _ ← call (LogError
             ("Error occurred while setting up listener socket: " +:+ err));
      mret (srv, true)
  | inl server =>
      let srv := set_Socket server srv in
      _ ← call (LogInfo
             ("Web server is listening at http://" +:+ serverAddress));
      _ ← acceptLoop n srv server;
      mret (srv, false)
  end.

End Server.

(** ** The server instance of the package *)

(** A [log.Logger]: its output, prefix and flags. *)
Record Logger : Type := {
  logOut : string;
  logPrefix : string;
  logFlags : Z
}.

(** [log.New(os.Stdout, "", log.Ldate | log.Ltime)]. *)
Definition stdoutLogger : Logger :=
  {| logOut := "os.Stdout"; logPrefix := ""; logFlags := Z.lor 1 2 |}.

(** A pointer to an [HttpServer]. *)
Definition ptr : Type := positive.

(** The package variables [SrvLogger] and [ServerInstance], both pointers
    that start as [nil], and the servers allocated so far. *)
Record Globals : Type := {
  SrvLogger : option Logger;
  ServerInstance : option ptr;
  servers : gmap ptr HttpServer
}.

(** The state of the package when the program starts. *)
Definition startup : Globals :=
  {| SrvLogger := None; ServerInstance := None; servers := ∅ |}.

(** Returns an instance of HTTP web server: the pointer returned and the
    package state after the call. *)
Definition NewServer (g : Globals) : ptr * Globals :=
  let logger :=
    match SrvLogger g with
    | None => Some stdoutLogger
    | Some l => Some l
    end in
  match ServerInstance g with
  | None =>
      let server :=
        {| HostAddress := ""; PortNumber := 0; Socket := None;
           innerRouter := newRouter |} in
      let p := fresh (dom (servers g)) in
      (p, {| SrvLogger := logger; ServerInstance := Some p;
             servers := <[p := server]> (servers g) |})
  | Some p =>
      (p, {| SrvLogger := logger; ServerInstance := Some p;
             servers := servers g |})
  end.

(** ** The statements of the specification *)

Section Statements.
Context `{Tables} `{Unicode.CaseRanges}.
Import Str Strconv.

(** [k] is a key of the table of versions. *)
Definition version_key (k : string) : Prop := is_Some (Versions !! k).

(** The method is contained in the entry of the allowed-methods table for
    the version, the key of the entry compared case-insensitively. *)
Definition method_in_table (version method : string) : Prop :=
  exists k ms,
    Versions !! k = Some ms /\ EqualFold k version = true /\ method ∈ ms.

(** The request version equals a supported version identifier under
    case-insensitive comparison. *)
Definition supported_version (requestVersion : string) : Prop :=
  exists k, version_key k /\ EqualFold k requestVersion = true.

(** The same with the white space around the identifier removed. *)
Definition supported_version_trimmed (requestVersion : string) : Prop :=
  exists k, version_key k /\ EqualFold (TrimSpace k) requestVersion = true.

(** [m] is the greatest of zero and of the numbers that the strings
    selected by [P] parse to: it is zero or one of these numbers above
    zero, and none of these numbers is above it. *)
Definition highest_among (P : string -> Prop) (m : float64) : Prop :=
  (m = Fin false 0
   \/ exists k, P k /\ ParseFloat k = Some m /\ fgt m (Fin false 0) = true)
  /\ forall k v, P k -> ParseFloat k = Some v -> fgt v m = false.

(** No version key that parses as a number is above [m]. *)
Definition above_all_keys (m : float64) : Prop :=
  forall k v, version_key k -> ParseFloat k = Some v -> fgt v m = false.

(** [k] is the numerically greatest supported version identifier,
    unparsable keys ignored. *)
Definition greatest_identifier (k : string) : Prop :=
  exists v, version_key k /\ ParseFloat k = Some v /\ above_all_keys v.

(** The negotiation of the response version as the specification states
    it. *)
Definition negotiation_as_stated (requestVersion : string) : Prop :=
  (supported_version requestVersion ->
   getResponseVersion requestVersion = requestVersion)
  /\ (~ supported_version requestVersion ->
      greatest_identifier (getResponseVersion requestVersion)).


(** The method check as the connection handler applies it to a request
    method. *)
Definition methodCheck (version method : string) : bool :=
  isMethodAllowed version (ToUpper (TrimSpace method)).


End Statements.

(** The trace of the connection handler holds the call of the error
    handler with a response whose status is [code]. *)
Definition error_response (code : Z) (req : HttpRequest) (t : list Event)
  : Prop :=
  exists res,
    Response.StatusCode res = Some code /\ EvErrorHandler req res ∈ t.

(** The trace holds a call of the router. *)
Definition route_matching_attempted (t : list Event) : Prop :=
  exists rt req ans, EvMatchRoute rt req ans ∈ t.

(** The 405 path of the connection handler as the specification states it,
    for one run of the handler. *)
Definition method_not_allowed_as_stated `{Tables} `{Unicode.CaseRanges}
    {W : Type} (env : Env W)
    (w : W) (srv : HttpServer) (c : Conn) : Prop :=
  let t := trace env (handleClient srv c) w in
  forall req0 req,
    EvRead req0 (req, None) ∈ t ->
    ~ method_in_table (getResponseVersion (Request.Version req))
        (Request.Method req) ->
    error_response StatusMethodNotAllowed req t
    /\ ~ route_matching_attempted t
    /\ ~ error_response StatusNotFound req t.

(** ** Sample tables and environments *)

Definition sampleTables : Tables := {|
  Versions := {[ "1.0" := ["GET"; "HEAD"; "POST"];
                 "1.1" := ["GET"; "HEAD"; "POST"] ]};
  AllowedContentTypes := {[ ".pdf" := "application/pdf" ]};
  ServerDefaults := {[ "port" := "8080"; "hostname" := "localhost";
                       "content_type" := "application/octet-stream" ]}
|}.

(** A string given by its bytes. *)
Definition of_bytes (l : list N) : string :=
  string_of_list_ascii (ascii_of_N <$> l).

(** A fragment of the case tables of Unicode, for the strings of the
    samples: the upper case of U+017F (long s) is S, of U+0131 (dotless i)
    is I, of U+00E9 is U+00C9 and of U+00FF is U+0178; the lower case of
    U+212A (the Kelvin sign) is k, of U+0130 is i and of U+00C9 is U+00E9.
    Every other rune is left as it is. *)
Definition sampleCase : Unicode.CaseRanges := {|
  Unicode.To_UpperCase r :=
    if r =? 383 then 83 else if r =? 305 then 73
    else if r =? 233 then 201 else if r =? 255 then 376 else r;
  Unicode.To_LowerCase r :=
    if r =? 8490 then 107 else if r =? 304 then 105
    else if r =? 201 then 233 else r
|}.

(** A table whose only version is written without a fraction. *)
Definition http2Tables : Tables := {|
  Versions := {[ "2" := ["GET"] ]};
  AllowedContentTypes := ∅;
  ServerDefaults := ∅
|}.

(** A table whose methods are written in lower case. *)
Definition lowerCaseTables : Tables := {|
  Versions := {[ "1.1" := ["get"] ]};
  AllowedContentTypes := ∅;
  ServerDefaults := ∅
|}.

(** Modelled from the spec: the absent method [addStaticRoute], which
    "registers a prefix-based static mapping; fails with a DuplicateRoute
    error if an identical (method, routePrefix) pair is already registered.
    Order of registration is preserved". *)
Definition addStaticRoute (rt : Router) (method route target : string)
  : Router * option error :=
  if existsb (fun r => String.eqb (RouteMethod r) method
                       && String.eqb (RoutePath r) route) (Routes rt)
  then (rt, Some "DuplicateRoute")
  else ({| Routes := Routes rt ++ [{| RouteMethod := method;
                                      RoutePath := route;
                                      TargetPath := target |}];
           RouteTree := RouteTree rt |}, None).

(** An environment that always gives the same answers: the parse gives
    [parsed], the router gives [routed], static routes are registered by
    [addStaticRoute], every connection accepted is [client]. *)
Definition fixedEnv (parsed : HttpRequest * option error)
    (routed : Handler + error) (client : Conn) : Env unit :=
  fun o w =>
    (match o return Resp o with
     | NewReader _ => 1%nat
     | NewWriter _ => 2%nat
     | Read _ => parsed
     | MatchRoute _ req => (req, routed)
     | AddStaticRoute rt m r t => addStaticRoute rt m r t
     | AddDynamicRoute rt _ _ _ => (rt, None)
     | NetListen _ _ => inl 3%nat
     | Accept _ => inl client
     | _ => tt
     end, w).

Definition sampleConn : Conn := {| conn_id := 7; RemoteAddr := "10.0.0.1:5000" |}.

Definition sampleRequest (method version : string) : HttpRequest :=
  {| Request.Method := method; Request.ResourcePath := "/user/alice";
     Request.Version := version; Request.Headers := [];
     Request.Segments := []; Request.reader := Some 1%nat |}.

Definition sampleServer : HttpServer :=
  {| HostAddress := ""; PortNumber := 0; Socket := None;
     innerRouter := newRouter |}.


(** ** Runs of the connection handler *)

(** The events that build or use a response: the writer of a response is
    created, or a handler is given the response to write to. *)
Definition responds (ev : Event) : bool :=
  match ev with
  | EvNewWriter _ _ | EvErrorHandler _ _ | EvCallHandler _ _ _ => true
  | _ => false
  end.

Definition is_close (ev : Event) : bool :=
  match ev with EvClose _ => true | _ => false end.

Definition is_read (ev : Event) : bool :=
  match ev with EvRead _ _ => true | _ => false end.

Definition is_route_handler_call (ev : Event) : bool :=
  match ev with EvCallHandler _ _ _ => true | _ => false end.

Definition is_error_handler_call (ev : Event) : bool :=
  match ev with EvErrorHandler _ _ => true | _ => false end.

Section Runs.
Context `{Tables} `{Unicode.CaseRanges}.

(** The request that [newRequest] returns, given its reader. *)
Definition requestOf (rd : Reader) : HttpRequest :=
  Request.setReader rd Request.initialize.

(** The response that [newResponse] returns for a parsed request, given
    its writer. *)
Definition responseOf (req : HttpRequest) (wr : Writer) : HttpResponse :=
  Response.setWriter wr
    (Response.initialize (getResponseVersion (Request.Version req))).

(** The four runs of the connection handler for the server [srv] and the
    connection [c]: the parse fails; the method is refused; no route
    matches; a route matches. *)
Inductive handled (srv : HttpServer) (c : Conn) : list Event -> Prop :=
  | handled_parse_failure (rd : Reader) (req : HttpRequest) (e : error) :
      handled srv c
        [EvNewReader c rd; EvRead (requestOf rd) (req, Some e);
         EvLogError e; EvClose c]
  | handled_method_not_allowed (rd : Reader) (req : HttpRequest)
      (wr : Writer) :
      methodCheck (getResponseVersion (Request.Version req))
        (Request.Method req) = false ->
      handled srv c
        [EvNewReader c rd; EvRead (requestOf rd) (req, None);
         EvNewWriter c wr;
         EvErrorHandler req
           (Response.Status StatusMethodNotAllowed (responseOf req wr));
         EvClose c]
  | handled_not_found (rd : Reader) (req : HttpRequest) (wr : Writer)
      (req' : HttpRequest) (e : error) :
      methodCheck (getResponseVersion (Request.Version req))
        (Request.Method req) = true ->
      handled srv c
        [EvNewReader c rd; EvRead (requestOf rd) (req, None);
         EvNewWriter c wr;
         EvMatchRoute (innerRouter srv) req (req', inr e);
         EvLogError e;
         EvErrorHandler req'
           (Response.Status StatusNotFound (responseOf req wr));
         EvClose c]
  | handled_route (rd : Reader) (req : HttpRequest) (wr : Writer)
      (req' : HttpRequest) (h : Handler) :
      methodCheck (getResponseVersion (Request.Version req))
        (Request.Method req) = true ->
      handled srv c
        [EvNewReader c rd; EvRead (requestOf rd) (req, None);
         EvNewWriter c wr;
         EvMatchRoute (innerRouter srv) req (req', inl h);
         EvCallHandler h req' (responseOf req wr);
         EvClose c].

End Runs.

(** The server that the first call of [NewServer] constructs. *)
Definition freshServer : HttpServer :=
  {| HostAddress := ""; PortNumber := 0; Socket := None;
     innerRouter := newRouter |}.

(** [n] calls of [NewServer] in a row: the pointers returned and the
    package state at the end. *)
Fixpoint NewServer_calls (n : nat) (g : Globals) : list ptr * Globals :=
  match n with
  | O => ([], g)
  | S n =>
      let '(p, g1) := NewServer g in
      let '(ps, g2) := NewServer_calls n g1 in
      (p :: ps, g2)
  end.

(** ** Auxiliary notions for the properties *)

(** A string that does not begin with white space: [TrimLeftSpace] stops
    at its first byte. *)
Definition starts_clean (s : string) : bool :=
  match s with
  | EmptyString => true
  | String b1 r1 =>
      negb (Str.asciiSpace b1)
      && match r1 with
         | EmptyString => true
         | String b2 r2 =>
             negb (Str.space2 b1 b2)
             && match r2 with
                | EmptyString => true
                | String b3 _ => negb (Str.space3 b1 b2 b3)
                end
         end
  end.

(** A string that consists of white space only: white-space bytes of
    ASCII and encodings of the white-space runes of Unicode. *)
Fixpoint all_space (s : string) : bool :=
  match s with
  | EmptyString => true
  | String b1 r1 =>
      if Str.asciiSpace b1 then all_space r1
      else match r1 with
           | EmptyString => false
           | String b2 r2 =>
               if Str.space2 b1 b2 then all_space r2
               else match r2 with
                    | EmptyString => false
                    | String b3 r3 => Str.space3 b1 b2 b3 && all_space r3
                    end
           end
  end.

(** A string, given by its bytes from the last to the first, that does
    not end with white space. *)
Definition stops_rev (s : string) : bool :=
  match s with
  | EmptyString => true
  | String b1 r1 =>
      negb (Str.asciiSpace b1)
      && match r1 with
         | EmptyString => true
         | String b2 r2 =>
             negb (Str.space2 b2 b1)
             && match r2 with
                | EmptyString => true
                | String b3 _ => negb (Str.space3 b3 b2 b1)
                end
         end
  end.

(** A string that does not end with white space: its last byte is no
    white-space byte of ASCII, and its last two and its last three bytes
    are no encoding of a white-space rune. *)
Definition ends_clean (s : string) : bool := stops_rev (Str.rev_string s).

(** What a trace of [Listen] holds: the listeners on which a connection
    was asked for, the connections and the errors that these calls
    answered with, the goroutines started, and the messages logged. *)
Definition accept_calls (t : list Event) : list Listener :=
  omap (fun ev => match ev with EvAccept l _ => Some l | _ => None end) t.

Definition accepted (t : list Event) : list Conn :=
  omap (fun ev =>
          match ev with EvAccept _ (inl c) => Some c | _ => None end) t.

Definition accept_errors (t : list Event) : list error :=
  omap (fun ev =>
          match ev with EvAccept _ (inr e) => Some e | _ => None end) t.

Definition spawned (t : list Event) : list (HttpServer * Conn) :=
  omap (fun ev =>
          match ev with EvGo srv c => Some (srv, c) | _ => None end) t.

Definition logged_errors (t : list Event) : list string :=
  omap (fun ev => match ev with EvLogError m => Some m | _ => None end) t.

Definition logged_infos (t : list Event) : list string :=
  omap (fun ev => match ev with EvLogInfo m => Some m | _ => None end) t.

(** The calls of a handler in a trace, of a route or of the error
    handler. *)
Definition handler_calls (t : list Event) : list Event :=
  List.filter
    (fun ev => is_route_handler_call ev || is_error_handler_call ev) t.

(** The errors that the parse of the request and the router answered
    with in a trace. *)
Definition read_errors (t : list Event) : list error :=
  omap (fun ev =>
          match ev with EvRead _ (_, Some e) => Some e | _ => None end) t.

Definition route_errors (t : list Event) : list error :=
  omap (fun ev =>
          match ev with
          | EvMatchRoute _ _ (_, inr e) => Some e
          | _ => None
          end) t.

(** A version identifier written as one digit, a point and one digit. *)
Definition one_decimal (k : string) : bool :=
  match k with
  | String a (String p (String b EmptyString)) =>
      Strconv.is_digit a && Str.byte_is 46 p && Strconv.is_digit b
  | _ => false
  end.

(** A table whose only version is written between blanks. *)
Definition paddedTables : Tables := {|
  Versions := {[ " 1.1 " := ["GET"] ]};
  AllowedContentTypes := ∅;
  ServerDefaults := ∅
|}.


(** An environment whose state counts the calls of [Accept]: the calls
    with an even count fail, the others give a connection named after the
    count. *)
Definition countingEnv : Env nat :=
  fun o w =>
    match o return Resp o * nat with
    | NewReader _ => (1%nat, w)
    | NewWriter _ => (2%nat, w)
    | Read req => ((req, None), w)
    | MatchRoute _ req => ((req, inr "no route"), w)
    | AddStaticRoute rt _ _ _ => ((rt, None), w)
    | AddDynamicRoute rt _ _ _ => ((rt, None), w)
    | NetListen _ _ => (inl 3%nat, w)
    | Accept _ =>
        (if Nat.even w then inr "timeout"
         else inl {| conn_id := w; RemoteAddr := "10.0.0.1:5000" |}, S w)
    | _ => (tt, w)
    end.

(** * Properties *)

(** ** White space *)

Section TrimSpaceFacts.
Import Str.

(** Induction on strings along the recursion of the two scans: the tail
    after one, two or three bytes. *)
Lemma string_ind3 (P : string -> Prop) :
  (forall s, (forall r, String.length r < String.length s -> P r)%nat -> P s) ->
  forall s, P s.
Proof.
  intros Hstep s.
  assert (H : forall n r, (String.length r < n)%nat -> P r).
  { induction n as [|n IH]; intros r Hr; [lia |].
    apply Hstep. intros r' Hr'. apply IH. lia. }
  apply (H (S (String.length s))). lia.
Qed.

Lemma TrimLeftSpace_eq (s : string) :
  TrimLeftSpace s
  = match s with
    | EmptyString => EmptyString
    | String b1 r1 =>
        if asciiSpace b1 then TrimLeftSpace r1
        else match r1 with
             | EmptyString => s
             | String b2 r2 =>
                 if space2 b1 b2 then TrimLeftSpace r2
                 else match r2 with
                      | EmptyString => s
                      | String b3 r3 =>
                          if space3 b1 b2 b3 then TrimLeftSpace r3 else s
                      end
             end
    end.
Proof. destruct s; reflexivity. Qed.

Lemma dropSpaceRev_eq (s : string) :
  dropSpaceRev s
  = match s with
    | EmptyString => EmptyString
    | String b1 r1 =>
        if asciiSpace b1 then dropSpaceRev r1
        else match r1 with
             | EmptyString => s
             | String b2 r2 =>
                 if space2 b2 b1 then dropSpaceRev r2
                 else match r2 with
                      | EmptyString => s
                      | String b3 r3 =>
                          if space3 b3 b2 b1 then dropSpaceRev r3 else s
                      end
             end
    end.
Proof. destruct s; reflexivity. Qed.

Lemma TrimLeftSpace_clean (s : string) :
  starts_clean (TrimLeftSpace s) = true.
Proof.
  induction s as [s IH] using string_ind3. rewrite TrimLeftSpace_eq.
  destruct s as [|b1 [|b2 [|b3 r3]]]; cbv beta iota; [reflexivity | | |].
  - destruct (asciiSpace b1) eqn:H1; [reflexivity |].
    cbn [starts_clean]. rewrite H1. reflexivity.
  - destruct (asciiSpace b1) eqn:H1; [apply IH; simpl; lia |].
    destruct (space2 b1 b2) eqn:H2; [reflexivity |].
    cbn [starts_clean]. rewrite H1, H2. reflexivity.
  - destruct (asciiSpace b1) eqn:H1; [apply IH; simpl; lia |].
    destruct (space2 b1 b2) eqn:H2; [apply IH; simpl; lia |].
    destruct (space3 b1 b2 b3) eqn:H3; [apply IH; simpl; lia |].
    cbn [starts_clean]. rewrite H1, H2, H3. reflexivity.
Qed.

Lemma TrimLeftSpace_fixed (s : string) :
  starts_clean s = true -> TrimLeftSpace s = s.
Proof.
  rewrite TrimLeftSpace_eq.
  destruct s as [|b1 [|b2 [|b3 r3]]]; cbn [starts_clean]; cbv beta iota;
    [reflexivity | | |];
    rewrite ?andb_true_iff, ?negb_true_iff;
    intros; destruct_and?;
    repeat match goal with H : _ = false |- _ => rewrite H; clear H end;
    reflexivity.
Qed.

Lemma starts_clean_prefix (p t : string) :
  starts_clean (p +:+ t) = true -> starts_clean p = true.
Proof.
  destruct p as [|b1 [|b2 [|b3 p]]]; [reflexivity | | |]; simpl.
  - destruct (asciiSpace b1); simpl; [intros Hf; exact Hf | reflexivity].
  - destruct (asciiSpace b1); simpl; [intros Hf; exact Hf |].
    destruct (space2 b1 b2); simpl; [intros Hf; exact Hf | reflexivity].
  - auto.
Qed.

Lemma dropSpaceRev_idempotent (s : string) :
  dropSpaceRev (dropSpaceRev s) = dropSpaceRev s.
Proof.
  induction s as [s IH] using string_ind3.
  rewrite (dropSpaceRev_eq s).
  destruct s as [|b1 [|b2 [|b3 r3]]]; cbv beta iota; [reflexivity | | |].
  - destruct (asciiSpace b1) eqn:H1; [reflexivity |].
    rewrite dropSpaceRev_eq. rewrite H1. reflexivity.
  - destruct (asciiSpace b1) eqn:H1; [apply IH; simpl; lia |].
    destruct (space2 b2 b1) eqn:H2; [reflexivity |].
    rewrite dropSpaceRev_eq. rewrite H1, H2. reflexivity.
  - destruct (asciiSpace b1) eqn:H1; [apply IH; simpl; lia |].
    destruct (space2 b2 b1) eqn:H2; [apply IH; simpl; lia |].
    destruct (space3 b3 b2 b1) eqn:H3; [apply IH; simpl; lia |].
    rewrite dropSpaceRev_eq. rewrite H1, H2, H3. reflexivity.
Qed.

Lemma suffix_cons (b : ascii) (r x : string) :
  (exists pre, r = pre +:+ x) -> exists pre, String b r = pre +:+ x.
Proof. intros [pre ->]. exists (String b pre). reflexivity. Qed.

(** The scan from the end leaves a suffix of the reversed string. *)
Lemma dropSpaceRev_suffix (s : string) :
  exists pre, s = pre +:+ dropSpaceRev s.
Proof.
  induction s as [s IH] using string_ind3.
  rewrite (dropSpaceRev_eq s).
  destruct s as [|b1 [|b2 [|b3 r3]]]; cbv beta iota;
    [exists ""; reflexivity | | |].
  - destruct (asciiSpace b1); [exists (String b1 "") | exists ""]; reflexivity.
  - destruct (asciiSpace b1); [apply suffix_cons, IH; simpl; lia |].
    destruct (space2 b2 b1);
      [exists (String b1 (String b2 "")) | exists ""]; reflexivity.
  - destruct (asciiSpace b1); [apply suffix_cons, IH; simpl; lia |].
    destruct (space2 b2 b1);
      [do 2 apply suffix_cons; apply IH; simpl; lia |].
    destruct (space3 b3 b2 b1);
      [do 3 apply suffix_cons; apply IH; simpl; lia |].
    exists "". reflexivity.
Qed.

Lemma list_ascii_of_string_app (a b : string) :
  list_ascii_of_string (a +:+ b)
  = (list_ascii_of_string a ++ list_ascii_of_string b)%list.
Proof.
  induction a as [|c a IH]; simpl; [reflexivity | rewrite IH; reflexivity].
Qed.

Lemma string_of_list_ascii_app (a b : list ascii) :
  string_of_list_ascii (a ++ b)%list
  = string_of_list_ascii a +:+ string_of_list_ascii b.
Proof.
  induction a as [|c a IH]; simpl; [reflexivity | rewrite IH; reflexivity].
Qed.

Lemma rev_string_app (a b : string) :
  rev_string (a +:+ b) = rev_string b +:+ rev_string a.
Proof.
  unfold rev_string.
  rewrite list_ascii_of_string_app, rev_app_distr, string_of_list_ascii_app.
  reflexivity.
Qed.

Lemma rev_string_involutive (s : string) : rev_string (rev_string s) = s.
Proof.
  unfold rev_string.
  rewrite list_ascii_of_string_of_list_ascii, rev_involutive.
  apply string_of_list_ascii_of_string.
Qed.

(** Trimming on the right leaves a prefix of the string. *)
Lemma TrimRightSpace_prefix (s : string) :
  exists t, s = TrimRightSpace s +:+ t.
Proof.
  unfold TrimRightSpace.
  destruct (dropSpaceRev_suffix (rev_string s)) as [pre Hpre].
  exists (rev_string pre).
  rewrite <- rev_string_app, <- Hpre. symmetry. apply rev_string_involutive.
Qed.

Lemma TrimRightSpace_idempotent (s : string) :
  TrimRightSpace (TrimRightSpace s) = TrimRightSpace s.
Proof.
  unfold TrimRightSpace.
  rewrite rev_string_involutive, dropSpaceRev_idempotent. reflexivity.
Qed.

(** A trimmed string does not begin with white space. *)
Lemma TrimSpace_clean (s : string) : starts_clean (TrimSpace s) = true.
Proof.
  unfold TrimSpace.
  destruct (TrimRightSpace_prefix (TrimLeftSpace s)) as [t Ht].
  apply (starts_clean_prefix _ t). rewrite <- Ht. apply TrimLeftSpace_clean.
Qed.

(** Trimming a trimmed string changes nothing. *)
Lemma TrimSpace_idempotent (s : string) :
  TrimSpace (TrimSpace s) = TrimSpace s.
Proof.
  unfold TrimSpace at 1.
  rewrite (TrimLeftSpace_fixed _ (TrimSpace_clean s)).
  unfold TrimSpace. apply TrimRightSpace_idempotent.
Qed.

Lemma dropSpaceRev_fixed (s : string) :
  stops_rev s = true -> dropSpaceRev s = s.
Proof.
  rewrite dropSpaceRev_eq.
  destruct s as [|b1 [|b2 [|b3 r3]]]; cbn [stops_rev]; cbv beta iota;
    [reflexivity | | |];
    rewrite ?andb_true_iff, ?negb_true_iff;
    intros; destruct_and?;
    repeat match goal with H : _ = false |- _ => rewrite H; clear H end;
    reflexivity.
Qed.

(** The last byte of an encoding of a white-space rune is no white-space
    byte of ASCII, and the last two bytes of an encoding of three bytes
    are no encoding of two. *)
Lemma space2_last (b1 b2 : ascii) :
  space2 b1 b2 = true -> asciiSpace b2 = false.
Proof.
  unfold space2, asciiSpace, byte_in, byte_is.
  rewrite !andb_true_iff, !orb_true_iff, !N.eqb_eq.
  intros [_ Hb].
  destruct (9 <=? code b2)%N eqn:E1, (code b2 <=? 13)%N eqn:E2,
           (code b2 =? 32)%N eqn:E3; try reflexivity;
    rewrite ?N.leb_le, ?N.eqb_eq in *; lia.
Qed.

Lemma space3_last (b1 b2 b3 : ascii) :
  space3 b1 b2 b3 = true -> asciiSpace b3 = false /\ space2 b2 b3 = false.
Proof.
  unfold space3, space2, asciiSpace, byte_in, byte_is.
  rewrite !orb_true_iff, !andb_true_iff, !orb_true_iff, !andb_true_iff,
    !N.eqb_eq, !N.leb_le.
  intros Hs.
  destruct (9 <=? code b3)%N eqn:E1, (code b3 <=? 13)%N eqn:E2,
           (code b3 =? 32)%N eqn:E3, (code b2 =? 194)%N eqn:E4;
    cbn [andb orb]; try (split; reflexivity);
    rewrite ?N.leb_le, ?N.eqb_eq in *; lia.
Qed.

Lemma string_app_assoc (a b c : string) : (a +:+ b) +:+ c = a +:+ (b +:+ c).
Proof.
  induction a as [|x a IH]; [reflexivity |].
  change (String x ((a +:+ b) +:+ c) = String x (a +:+ (b +:+ c))).
  rewrite IH. reflexivity.
Qed.

Lemma rev_string_cons (b : ascii) (r y : string) :
  rev_string (String b r) +:+ y = rev_string r +:+ String b y.
Proof.
  change (String b r) with (String b "" +:+ r).
  rewrite rev_string_app, string_app_assoc. reflexivity.
Qed.

(** White space at the end of a string is dropped by the scan from the
    end. *)
Lemma dropSpaceRev_white (r : string) :
  all_space r = true ->
  forall y, dropSpaceRev (rev_string r +:+ y) = dropSpaceRev y.
Proof.
  induction r as [r IH] using string_ind3.
  destruct r as [|b1 r1]; [reflexivity |]. cbn [all_space].
  destruct (asciiSpace b1) eqn:H1.
  { intros Hr y. rewrite rev_string_cons, IH by (simpl; lia || exact Hr).
    rewrite dropSpaceRev_eq, H1. reflexivity. }
  destruct r1 as [|b2 r2]; [discriminate |].
  destruct (space2 b1 b2) eqn:H2.
  { intros Hr y. rewrite !rev_string_cons, IH by (simpl; lia || exact Hr).
    rewrite dropSpaceRev_eq, (space2_last _ _ H2), H2. reflexivity. }
  destruct r2 as [|b3 r3]; [discriminate |].
  intros Hr y. apply andb_true_iff in Hr as [H3 Hr].
  rewrite !rev_string_cons, IH by (simpl; lia || exact Hr).
  destruct (space3_last _ _ _ H3) as [Ha Hb].
  rewrite dropSpaceRev_eq, Ha, Hb, H3. reflexivity.
Qed.

(** The white space after a string that does not end with white space is
    what [TrimRightSpace] removes. *)
Lemma TrimRightSpace_split (x r : string) :
  all_space r = true -> ends_clean x = true ->
  TrimRightSpace (x +:+ r) = x.
Proof.
  intros Hr Hx. unfold TrimRightSpace.
  rewrite rev_string_app, (dropSpaceRev_white r Hr),
    (dropSpaceRev_fixed _ Hx).
  apply rev_string_involutive.
Qed.

Lemma TrimSpace_split (x r : string) :
  starts_clean (x +:+ r) = true ->
  all_space r = true -> ends_clean x = true ->
  TrimSpace (x +:+ r) = x.
Proof.
  intros Hs Hr Hx. unfold TrimSpace.
  rewrite (TrimLeftSpace_fixed _ Hs). apply TrimRightSpace_split; assumption.
Qed.

End TrimSpaceFacts.

(** ** Case folding *)

Section EqualFoldFacts.
Import Str.

Lemma lower_byte_idempotent (c : ascii) :
  lower_byte (lower_byte c) = lower_byte c.
Proof. destruct c as [[] [] [] [] [] [] [] []]; reflexivity. Qed.

Lemma code_bounded (a : ascii) : (code a < 256)%N.
Proof. apply N_ascii_bounded. Qed.

Lemma code_inj (a b : ascii) : code a = code b -> a = b.
Proof.
  unfold code. intros Hc.
  rewrite <- (ascii_N_embedding a), <- (ascii_N_embedding b), Hc.
  reflexivity.
Qed.

Lemma code_lower_byte (a : ascii) :
  code (lower_byte a) = if byte_in 65 90 a then (code a + 32)%N else code a.
Proof.
  unfold lower_byte. destruct (byte_in 65 90 a) eqn:Ha; [| reflexivity].
  unfold code at 1. apply N_ascii_embedding.
  unfold byte_in in Ha. apply andb_true_iff in Ha as [_ Ha].
  apply N.leb_le in Ha. lia.
Qed.

Lemma code_upper_byte (a : ascii) :
  code (upper_byte a) = if byte_in 97 122 a then (code a - 32)%N else code a.
Proof.
  unfold upper_byte. destruct (byte_in 97 122 a) eqn:Ha; [| reflexivity].
  unfold code at 1. apply N_ascii_embedding.
  pose proof (code_bounded a). lia.
Qed.

(** Two bytes with the same lower case: their codes. *)
Lemma fold_codes (a b : ascii) :
  lower_byte a = lower_byte b ->
  (if byte_in 65 90 a then (code a + 32)%N else code a)
  = (if byte_in 65 90 b then (code b + 32)%N else code b).
Proof.
  intros Hab. rewrite <- !code_lower_byte, Hab. reflexivity.
Qed.

Lemma fold_cases (a b : ascii) :
  lower_byte a = lower_byte b ->
  a = b \/ ((code a < 128)%N /\ (code b < 128)%N).
Proof.
  intros Hab. apply fold_codes in Hab. unfold byte_in in Hab.
  destruct (65 <=? code a)%N eqn:A1, (code a <=? 90)%N eqn:A2,
           (65 <=? code b)%N eqn:B1, (code b <=? 90)%N eqn:B2;
    cbn [andb] in Hab;
    rewrite ?N.leb_le, ?N.leb_gt in *;
    first [left; apply code_inj; lia | right; lia].
Qed.

Lemma fold_range (lo hi : N) (a b : ascii) :
  lower_byte a = lower_byte b -> (128 <= lo)%N ->
  byte_in lo hi a = byte_in lo hi b
  /\ (byte_in lo hi a = true -> a = b).
Proof.
  intros Hab Hlo. destruct (fold_cases a b Hab) as [-> | [Ha Hb]].
  - auto.
  - unfold byte_in.
    replace (lo <=? code a)%N with false by (symmetry; apply N.leb_gt; lia).
    replace (lo <=? code b)%N with false by (symmetry; apply N.leb_gt; lia).
    split; [reflexivity | discriminate].
Qed.

Lemma first_lo (a : ascii) (sz : nat) (lo hi : N) :
  first a = Some (sz, lo, hi) -> (128 <= lo)%N.
Proof.
  unfold first.
  repeat match goal with
         | |- context [if ?c then _ else _] => destruct c
         end; intros [= <- <- <-]; lia.
Qed.

Lemma EqualFold_inv (a : ascii) (s t : string) :
  EqualFold (String a s) t = true ->
  exists b t', t = String b t' /\ lower_byte a = lower_byte b
               /\ EqualFold s t' = true.
Proof.
  destruct t as [|b t']; [discriminate |]. cbn [EqualFold].
  intros Hb. apply andb_true_iff in Hb as [Hab Hst].
  apply Ascii.eqb_eq in Hab. eauto.
Qed.

Lemma EqualFold_nil (t : string) : EqualFold "" t = true -> t = "".
Proof. destruct t; [reflexivity | discriminate]. Qed.

Lemma EqualFold_length (s t : string) :
  EqualFold s t = true -> String.length s = String.length t.
Proof.
  revert t. induction s as [|a s IH]; intros t Hst.
  - apply EqualFold_nil in Hst. subst. reflexivity.
  - apply EqualFold_inv in Hst as (b & t' & -> & _ & Hst).
    cbn [String.length]. f_equal. apply IH, Hst.
Qed.

Lemma EqualFold_isASCII (s t : string) :
  EqualFold s t = true -> isASCII s = isASCII t.
Proof.
  revert t. induction s as [|a s IH]; intros t Hst.
  - apply EqualFold_nil in Hst. subst. reflexivity.
  - apply EqualFold_inv in Hst as (b & t' & -> & Hab & Hst).
    cbn [isASCII]. rewrite (IH _ Hst). f_equal.
    destruct (fold_cases a b Hab) as [-> | [Ha Hb]]; [reflexivity |].
    apply N.ltb_lt in Ha, Hb. congruence.
Qed.

Lemma EqualFold_lower_bytes (s t : string) :
  EqualFold s t = true <-> map_bytes lower_byte s = map_bytes lower_byte t.
Proof.
  revert t.
  induction s as [|a s IH]; intros [|b t]; cbn [map_bytes EqualFold];
    try (split; [reflexivity | reflexivity]);
    try (split; discriminate).
  rewrite andb_true_iff, Ascii.eqb_eq, IH. split.
  - intros [-> ->]. reflexivity.
  - intros [= -> ->]. auto.
Qed.

(** The runes decoded at the head of two strings that are equal under
    case folding: the same number of bytes, and the same rune unless both
    are ASCII bytes with the same lower case. *)
Lemma DecodeRune_fold (s t : string) :
  EqualFold s t = true ->
  (DecodeRuneInString s).2 = (DecodeRuneInString t).2
  /\ ((DecodeRuneInString s).1 = (DecodeRuneInString t).1
      \/ exists a b s' t',
           s = String a s' /\ t = String b t'
           /\ lower_byte a = lower_byte b /\ (code a < 128)%N
           /\ (DecodeRuneInString s).1 = rune_of a
           /\ (DecodeRuneInString t).1 = rune_of b).
Proof.
  intros Hst. pose proof (EqualFold_length s t Hst) as Hlen.
  destruct s as [|a0 s].
  { apply EqualFold_nil in Hst. subst. auto. }
  apply EqualFold_inv in Hst as (b0 & t0 & -> & H0 & Hst).
  destruct (fold_cases a0 b0 H0) as [<- | [Ha Hb]].
  2:{ cbn [DecodeRuneInString].
      apply N.ltb_lt in Ha, Hb. rewrite Ha, Hb. cbn [fst snd].
      split; [reflexivity |]. right.
      exists a0, b0, s, t0. apply N.ltb_lt in Ha. auto 10. }
  unfold DecodeRuneInString. rewrite <- Hlen.
  destruct (code a0 <? 128)%N eqn:Ha.
  { cbn [fst snd]. auto. }
  destruct (first a0) as [[[sz lo] hi] |] eqn:Hf; [| auto].
  apply first_lo in Hf.
  destruct (String.length (String a0 s) <? sz)%nat; [auto |].
  destruct s as [|a1 s].
  { apply EqualFold_nil in Hst. subst. auto. }
  apply EqualFold_inv in Hst as (b1 & t1 & -> & H1 & Hst).
  destruct (fold_range lo hi a1 b1 H1 Hf) as [R1 E1]. rewrite <- R1.
  destruct (byte_in lo hi a1); [| auto]. specialize (E1 eq_refl). subst b1.
  cbn [negb]. destruct (sz <=? 2)%nat; [auto |].
  destruct s as [|a2 s].
  { apply EqualFold_nil in Hst. subst. auto. }
  apply EqualFold_inv in Hst as (b2 & t2 & -> & H2 & Hst).
  destruct (fold_range 128 191 a2 b2 H2 ltac:(lia)) as [R2 E2].
  rewrite <- R2.
  destruct (byte_in 128 191 a2); [| auto]. specialize (E2 eq_refl).
  subst b2. cbn [negb]. destruct (sz <=? 3)%nat; [auto |].
  destruct s as [|a3 s].
  { apply EqualFold_nil in Hst. subst. auto. }
  apply EqualFold_inv in Hst as (b3 & t3 & -> & H3 & Hst).
  destruct (fold_range 128 191 a3 b3 H3 ltac:(lia)) as [R3 E3].
  rewrite <- R3.
  destruct (byte_in 128 191 a3); [| auto]. specialize (E3 eq_refl).
  subst b3. auto.
Qed.

Lemma Map_cons (f : Z -> Z) (a : ascii) (r0 : string) :
  Map f (String a r0)
  = let '(c, width) := DecodeRuneInString (String a r0) in
    (if 0 <=? f c then AppendRune (f c) else EmptyString)
    +:+ match width, r0 with
        | 2%nat, String _ r1 => Map f r1
        | 3%nat, String _ (String _ r2) => Map f r2
        | 4%nat, String _ (String _ (String _ r3)) => Map f r3
        | _, _ => Map f r0
        end.
Proof. reflexivity. Qed.

(** A mapping of runes that does not tell apart two ASCII bytes with the
    same lower case maps two strings that are equal under case folding to
    the same string. *)
Lemma Map_fold (f : Z -> Z) :
  (forall a b, lower_byte a = lower_byte b -> (code a < 128)%N ->
               f (rune_of a) = f (rune_of b)) ->
  forall s t, EqualFold s t = true -> Map f s = Map f t.
Proof.
  intros Hf s.
  remember (String.length s) as n eqn:Hn.
  assert (Hle : (String.length s <= n)%nat) by lia. clear Hn.
  revert s Hle. induction n as [|n IH]; intros s Hle t Hst.
  { destruct s; [| cbn in Hle; lia].
    apply EqualFold_nil in Hst. subst. reflexivity. }
  destruct s as [|a0 s].
  { apply EqualFold_nil in Hst. subst. reflexivity. }
  destruct (DecodeRune_fold _ _ Hst) as [Hw Hc].
  apply EqualFold_inv in Hst as (b0 & t0 & -> & H0 & Hst).
  rewrite !Map_cons.
  destruct (DecodeRuneInString (String a0 s)) as [c w].
  destruct (DecodeRuneInString (String b0 t0)) as [c' w'].
  cbn [fst snd] in Hw, Hc. subst w'.
  assert (Hfc : f c = f c').
  { destruct Hc as [-> | (a & b & s' & t' & [= <- <-] & [= <- <-] & Hab & Ha
                           & -> & ->)];
      [reflexivity | apply Hf; assumption]. }
  rewrite Hfc. f_equal. cbn [String.length] in Hle.
  assert (I0 : Map f s = Map f t0) by (apply IH; [lia | exact Hst]).
  destruct w as [|[|[|[|[|w]]]]]; try exact I0.
  - destruct s as [|a1 s].
    { apply EqualFold_nil in Hst. subst. reflexivity. }
    apply EqualFold_inv in Hst as (b1 & t1 & -> & H1 & Hst).
    apply IH; [cbn in Hle |- *; lia | exact Hst].
  - destruct s as [|a1 s].
    { apply EqualFold_nil in Hst. subst. reflexivity. }
    apply EqualFold_inv in Hst as (b1 & t1 & -> & H1 & Hst).
    destruct s as [|a2 s].
    { apply EqualFold_nil in Hst. subst. exact I0. }
    apply EqualFold_inv in Hst as (b2 & t2 & -> & H2 & Hst).
    apply IH; [cbn in Hle |- *; lia | exact Hst].
  - destruct s as [|a1 s].
    { apply EqualFold_nil in Hst. subst. reflexivity. }
    apply EqualFold_inv in Hst as (b1 & t1 & -> & H1 & Hst).
    destruct s as [|a2 s].
    { apply EqualFold_nil in Hst. subst. exact I0. }
    apply EqualFold_inv in Hst as (b2 & t2 & -> & H2 & Hst).
    destruct s as [|a3 s].
    { apply EqualFold_nil in Hst. subst. exact I0. }
    apply EqualFold_inv in Hst as (b3 & t3 & -> & H3 & Hst).
    apply IH; [cbn in Hle |- *; lia | exact Hst].
Qed.

Lemma EqualFold_refl (s : string) : EqualFold s s = true.
Proof. apply EqualFold_lower_bytes. reflexivity. Qed.

Lemma EqualFold_sym (s t : string) : EqualFold s t = EqualFold t s.
Proof.
  destruct (EqualFold s t) eqn:H1, (EqualFold t s) eqn:H2; try reflexivity.
  - apply EqualFold_lower_bytes in H1. symmetry in H1.
    apply EqualFold_lower_bytes in H1. congruence.
  - apply EqualFold_lower_bytes in H2. symmetry in H2.
    apply EqualFold_lower_bytes in H2. congruence.
Qed.

Lemma EqualFold_trans (s t u : string) :
  EqualFold s t = true -> EqualFold t u = true -> EqualFold s u = true.
Proof. rewrite !EqualFold_lower_bytes. congruence. Qed.

Context `{Unicode.CaseRanges}.

Lemma rune_of_bound (a : ascii) : (code a < 128)%N -> rune_of a <= 127.
Proof. unfold rune_of. lia. Qed.

Lemma ToLower_rune_fold (a b : ascii) :
  lower_byte a = lower_byte b -> (code a < 128)%N ->
  Unicode.ToLower (rune_of a) = Unicode.ToLower (rune_of b).
Proof.
  intros Hab Ha.
  destruct (fold_cases a b Hab) as [-> | [_ Hb]]; [reflexivity |].
  apply fold_codes in Hab. unfold Unicode.ToLower, Unicode.MaxASCII, rune_of.
  replace (Z.of_N (code a) <=? 127) with true by (symmetry; apply Z.leb_le; lia).
  replace (Z.of_N (code b) <=? 127) with true by (symmetry; apply Z.leb_le; lia).
  unfold byte_in in Hab.
  destruct (65 <=? code a)%N eqn:A1, (code a <=? 90)%N eqn:A2,
           (65 <=? code b)%N eqn:B1, (code b <=? 90)%N eqn:B2;
    cbn [andb] in Hab;
    rewrite ?N.leb_le, ?N.leb_gt in *;
    repeat match goal with
           | |- context [(?x <=? ?y)] =>
               let E := fresh in
               destruct (x <=? y) eqn:E;
               [apply Z.leb_le in E | apply Z.leb_gt in E]
           end; cbn [andb]; lia.
Qed.



(** Two strings equal under case folding have the same lower case and the
    same upper case. *)
Lemma EqualFold_ToLower_eq (s t : string) :
  EqualFold s t = true -> ToLower s = ToLower t.
Proof.
  intros Hst. unfold ToLower. rewrite <- (EqualFold_isASCII _ _ Hst).
  destruct (isASCII s).
  - apply EqualFold_lower_bytes, Hst.
  - apply Map_fold; [exact ToLower_rune_fold | exact Hst].
Qed.


End EqualFoldFacts.

(** ** The order of [float64] *)

Section FloatOrder.
Import Strconv.

Lemma fgt_irrefl (a : float64) : fgt a a = false.
Proof.
  unfold fgt. destruct (rank a) as [[i x]|]; [|reflexivity].
  rewrite !Z.ltb_irrefl, Z.eqb_refl. reflexivity.
Qed.

(** Raising the bound keeps what was below it below. *)
Lemma fgt_raise (v m m' : float64) :
  fgt v m = false -> fgt m' m = true -> fgt v m' = false.
Proof.
  unfold fgt.
  destruct (rank v) as [[i x]|], (rank m) as [[j y]|], (rank m') as [[k z]|];
    try reflexivity; try discriminate.
  rewrite !orb_false_iff, !orb_true_iff, !andb_false_iff, !andb_true_iff,
    !Z.ltb_ge, !Z.ltb_lt, !Z.eqb_eq, !Z.eqb_neq.
  lia.
Qed.

(** Two ordered numbers, neither above the other, have the same rank. *)
Lemma fgt_antisym (a b : float64) (x y : Z * Z) :
  rank a = Some x -> rank b = Some y ->
  fgt a b = false -> fgt b a = false -> x = y.
Proof.
  unfold fgt. intros -> ->. destruct x as [i x], y as [j y].
  rewrite !orb_false_iff, !andb_false_iff, !Z.ltb_ge, !Z.eqb_neq.
  intros. f_equal; lia.
Qed.

(** Above zero, the rank determines the number. *)
Lemma rank_inj_pos (a b : float64) :
  fgt a (Fin false 0) = true -> rank a = rank b -> a = b.
Proof.
  unfold fgt.
  destruct a as [|[]|[] u], b as [|[]|[] u']; simpl;
    try discriminate; try reflexivity;
    rewrite ?orb_true_iff, ?andb_true_iff, ?Z.ltb_lt, ?Z.eqb_eq;
    intros Hpos Heq; try (injection Heq as Heq); try lia;
    f_equal; lia.
Qed.

End FloatOrder.

(** ** Version negotiation *)

Section Negotiation.
Context `{Tables} `{Unicode.CaseRanges}.
Import Str Strconv.

Lemma fgt_trans (a b c : float64) :
  fgt a b = true -> fgt b c = true -> fgt a c = true.
Proof.
  unfold fgt.
  destruct (rank a) as [[i x]|], (rank b) as [[j y]|], (rank c) as [[k z]|];
    try discriminate.
  rewrite !orb_true_iff, !andb_true_iff, !Z.ltb_lt, !Z.eqb_eq. lia.
Qed.

Lemma highestStep_cases (m0 : float64) (k : string) :
  (highestStep m0 k = m0
   \/ ParseFloat k = Some (highestStep m0 k)
      /\ fgt (highestStep m0 k) m0 = true)
  /\ forall v, ParseFloat k = Some v -> fgt v (highestStep m0 k) = false.
Proof.
  unfold highestStep. destruct (ParseFloat k) as [c|] eqn:Hk.
  - destruct (fgt c m0) eqn:Hc; split; auto.
    + intros v [= <-]. apply fgt_irrefl.
    + intros v [= <-]. exact Hc.
  - split; [auto | discriminate].
Qed.

(** The loop of [getHighestVersion] from any starting value. *)
Lemma foldl_highestStep (ks : list string) (m0 : float64) :
  let m := foldl highestStep m0 ks in
  (m = m0
   \/ exists k, k ∈ ks /\ ParseFloat k = Some m /\ fgt m m0 = true)
  /\ forall k v, k ∈ ks -> ParseFloat k = Some v -> fgt v m = false.
Proof.
  revert m0. induction ks as [|k ks IH]; intros m0; simpl.
  - split; [auto | intros k v Hk; inversion Hk].
  - destruct (IH (highestStep m0 k)) as [Hm Hb].
    destruct (highestStep_cases m0 k) as [Hs Hv].
    set (m1 := highestStep m0 k) in *.
    set (m := foldl highestStep m1 ks) in *.
    split.
    + destruct Hm as [Hm | (k' & Hin & Hp & Hgt)].
      * rewrite Hm. destruct Hs as [Hs | [Hp Hgt]]; [auto |].
        right. exists k. split; [left | auto].
      * right. exists k'. split; [right; exact Hin |]. split; [exact Hp |].
        destruct Hs as [Hs | [_ Hgt1]]; [rewrite <- Hs; exact Hgt |].
        exact (fgt_trans _ _ _ Hgt Hgt1).
    + intros k' v Hin Hp. apply elem_of_cons in Hin as [-> | Hin].
      * specialize (Hv v Hp).
        destruct Hm as [Hm | (_ & _ & _ & Hgt)]; [rewrite Hm; exact Hv |].
        exact (fgt_raise _ _ _ Hv Hgt).
      * exact (Hb k' v Hin Hp).
Qed.

Lemma foldl_highest_among (ks : list string) :
  highest_among (fun k => k ∈ ks) (foldl highestStep (Fin false 0) ks).
Proof. exact (foldl_highestStep ks (Fin false 0)). Qed.

(** The greatest number is determined by the set of strings. *)
Lemma highest_among_unique (P : string -> Prop) (m1 m2 : float64) :
  highest_among P m1 -> highest_among P m2 -> m1 = m2.
Proof.
  intros [H1 B1] [H2 B2].
  destruct H1 as [-> | (k1 & P1 & E1 & G1)],
           H2 as [-> | (k2 & P2 & E2 & G2)]; [reflexivity | | |].
  - rewrite (B1 k2 m2 P2 E2) in G2. discriminate.
  - rewrite (B2 k1 m1 P1 E1) in G1. discriminate.
  - pose proof (B1 k2 m2 P2 E2) as L21. pose proof (B2 k1 m1 P1 E1) as L12.
    apply rank_inj_pos; [exact G1 |].
    destruct (rank m1) as [x|] eqn:R1;
      [| unfold fgt in G1; rewrite R1 in G1; discriminate].
    destruct (rank m2) as [y|] eqn:R2;
      [| unfold fgt in G2; rewrite R2 in G2; discriminate].
    f_equal. exact (fgt_antisym m1 m2 x y R1 R2 L12 L21).
Qed.

Lemma elem_of_versionKeys (k : string) : k ∈ versionKeys <-> version_key k.
Proof.
  unfold versionKeys, version_key. rewrite list_elem_of_fmap. split.
  - intros ([k' ms] & -> & Hin). apply elem_of_map_to_list in Hin.
    exists ms. exact Hin.
  - intros [ms Hms]. exists (k, ms). split; [reflexivity |].
    apply elem_of_map_to_list. exact Hms.
Qed.

(** The highest version is the rendering of the greatest number among the
    version keys. *)
Lemma getHighestVersion_highest :
  exists m, getHighestVersion = Sprintf_1f m /\ highest_among version_key m.
Proof.
  exists (foldl highestStep (Fin false 0) versionKeys). split; [reflexivity |].
  destruct (foldl_highest_among versionKeys) as [Hm Hb]. split.
  - destruct Hm as [Hm | (k & Hin & Hk)]; [auto | right].
    exists k. split; [apply elem_of_versionKeys; exact Hin | exact Hk].
  - intros k v Hk. apply Hb, elem_of_versionKeys, Hk.
Qed.

(** The order in which the loop visits the keys does not change the
    highest version. *)
Lemma getHighestVersion_any_order (ks : list string) :
  ks ≡ₚ versionKeys ->
  Sprintf_1f (foldl highestStep (Fin false 0) ks) = getHighestVersion.
Proof.
  intros Hp. unfold getHighestVersion. f_equal.
  apply (highest_among_unique (fun k => k ∈ versionKeys)).
  - destruct (foldl_highest_among ks) as [Hm Hb]. split.
    + destruct Hm as [Hm | (k & Hin & Hk)]; [auto | right].
      exists k. split; [rewrite <- Hp; exact Hin | exact Hk].
    + intros k v Hk. apply Hb. rewrite Hp. exact Hk.
  - apply foldl_highest_among.
Qed.

Lemma isCompatible_spec (requestVersion : string) :
  existsb (fun version => EqualFold version requestVersion) getAllVersions
  = true <-> supported_version_trimmed requestVersion.
Proof.
  rewrite existsb_exists. unfold getAllVersions, supported_version_trimmed.
  split.
  - intros (v & Hin & He). apply list_elem_of_In, list_elem_of_fmap in Hin.
    destruct Hin as (k & -> & Hk). exists k.
    split; [apply elem_of_versionKeys; exact Hk | exact He].
  - intros (k & Hk & He). exists (TrimSpace k). split; [| exact He].
    apply list_elem_of_In, list_elem_of_fmap. exists k.
    split; [reflexivity | apply elem_of_versionKeys; exact Hk].
Qed.

(** C1 (amended).  A request version that equals a supported version
    identifier, taken without the white space around it, under
    case-insensitive comparison is returned unchanged.  Any other request
    version gives the rendering, with one digit after the point, of the
    greatest number among the version keys: zero when no key parses to a
    number above zero, and otherwise the value of a key that no parsable key
    exceeds; unparsable keys are ignored.  The result is then the greatest
    supported version identifier itself whenever that identifier is above
    zero and is its own rendering with one digit after the point. *)
Theorem getResponseVersion_negotiation (requestVersion : string) :
  (supported_version_trimmed requestVersion ->
   getResponseVersion requestVersion = requestVersion)
  /\ (~ supported_version_trimmed requestVersion ->
      (exists m,
          highest_among version_key m
          /\ getResponseVersion requestVersion = Sprintf_1f m)
      /\ forall k v,
          version_key k -> ParseFloat k = Some v -> above_all_keys v ->
          fgt v (Fin false 0) = true -> Sprintf_1f v = k ->
          getResponseVersion requestVersion = k).
Proof.
  unfold getResponseVersion.
  destruct (existsb _ getAllVersions) eqn:Hc; split.
  - reflexivity.
  - intros Hn. apply isCompatible_spec in Hc. contradiction.
  - intros Hs. apply isCompatible_spec in Hs. congruence.
  - intros _. destruct getHighestVersion_highest as (m & Hm & Hh). split.
    + exists m. split; [exact Hh | exact Hm].
    + intros k v Hk Hp Hab Hpos Hr. rewrite Hm, <- Hr. f_equal.
      apply (highest_among_unique version_key); [exact Hh |].
      split; [right; exists k; auto | exact Hab].
Qed.

End Negotiation.

(** With the versions 1.0 and 1.1, a request for 1.1 is answered with 1.1
    and a request for 2.0 with the highest version, 1.1. *)
Example negotiation_sample :
  @getResponseVersion sampleTables "1.1" = "1.1"
  /\ @getResponseVersion sampleTables "2.0" = "1.1"
  /\ @getResponseVersion sampleTables "0.9" = "1.1".
Proof. vm_compute. auto. Qed.

(** With the versions 1.0 and 1.1: the request version "1.1" is supported
    and returned as it is; the request version "2.0" is not, and is
    answered with the greatest identifier, "1.1". *)
Lemma getResponseVersion_negotiation_witness :
  @getResponseVersion sampleTables "1.1" = "1.1"
  /\ @getResponseVersion sampleTables "2.0" = "1.1".
Proof.
  split.
  - apply (proj1 (@getResponseVersion_negotiation sampleTables "1.1")).
    exists "1.1". split; [eexists; reflexivity | reflexivity].
  - destruct (proj2 (@getResponseVersion_negotiation sampleTables "2.0"))
      as [_ Hid].
    { intros Hs. apply (@isCompatible_spec sampleTables) in Hs.
      vm_compute in Hs. discriminate Hs. }
    eapply (Hid "1.1").
    + eexists; reflexivity.
    + vm_compute. reflexivity.
    + intros k v Hk Hp. apply (@elem_of_versionKeys sampleTables) in Hk.
      vm_compute in Hk.
      apply elem_of_cons in Hk as [-> | Hk];
        [| apply elem_of_cons in Hk as [-> | Hk];
           [| apply elem_of_nil in Hk; contradiction]];
        vm_compute in Hp; injection Hp as <-; vm_compute; reflexivity.
    + vm_compute. reflexivity.
    + vm_compute. reflexivity.
Defined.

(** C1 as stated fails: with the single version "2", a request for version
    1.0 is answered with "2.0", which is no supported version identifier. *)
Lemma negotiation_as_stated_fails :
  @getResponseVersion http2Tables "1.0" = "2.0"
  /\ ~ @negotiation_as_stated http2Tables "1.0".
Proof.
  split; [vm_compute; reflexivity |].
  intros [_ Hg].
  assert (Hn : ~ @supported_version http2Tables "1.0").
  { intros (k & [ms Hk] & He). simpl in Hk.
    apply lookup_singleton_Some in Hk as [<- _]. vm_compute in He.
    discriminate. }
  destruct (Hg Hn) as (v & [ms Hk] & _).
  vm_compute in Hk. discriminate.
Qed.

(** ** The method check *)

Section MethodCheck.
Context `{Tables} `{Unicode.CaseRanges}.
Import Str Strconv.

Lemma isMethodAllowed_spec (version method : string) :
  isMethodAllowed version method = true <-> method_in_table version method.
Proof.
  unfold isMethodAllowed, method_in_table. rewrite existsb_exists. split.
  - intros ([k ms] & Hin & Hb). apply andb_true_iff in Hb as [He Hm].
    apply bool_decide_eq_true in Hm.
    apply list_elem_of_In, elem_of_map_to_list in Hin.
    exists k, ms. auto.
  - intros (k & ms & Hk & He & Hm). exists (k, ms). split.
    + apply list_elem_of_In, elem_of_map_to_list. exact Hk.
    + simpl. rewrite He. simpl. apply bool_decide_eq_true. exact Hm.
Qed.


End MethodCheck.




(** With POST allowed for version 1.1 and S the upper case of the long s
    U+017F, the method written with a long s passes the check, and the
    request is routed. *)
Example methodCheck_long_s :
  let method := "po" +:+ of_bytes [197; 191]%N +:+ "t" in
  @Str.ToUpper sampleCase method = "POST"
  /\ @methodCheck sampleTables sampleCase "1.1" method = true.
Proof. vm_compute. auto. Qed.

(** ** The content type of a file *)

Section ContentType.
Context `{Tables} `{Unicode.CaseRanges}.
Import Str Strconv.

Lemma byte_is_eq (n : N) (c : ascii) :
  byte_is n c = true -> c = ascii_of_N n.
Proof.
  unfold byte_is, code. intros Hn. apply N.eqb_eq in Hn.
  rewrite <- Hn. symmetry. apply ascii_N_embedding.
Qed.

Lemma extRev_leading_dot (r acc : string) :
  Filepath.extRev r acc = "" \/ exists x, Filepath.extRev r acc = String "." x.
Proof.
  revert acc. induction r as [|c r IH]; intros acc; simpl; [auto |].
  destruct (byte_is 47 c); [auto |].
  destruct (byte_is 46 c) eqn:Hdot; [| apply IH].
  right. exists acc. apply byte_is_eq in Hdot. rewrite Hdot. reflexivity.
Qed.

(** The extension of a path is empty or begins with a dot. *)
Lemma Ext_leading_dot (path : string) :
  Filepath.Ext path = "" \/ exists x, Filepath.Ext path = String "." x.
Proof. apply extRev_leading_dot. Qed.

(** The default media type, read as [getServerDefaults] reads a default. *)
Lemma default_content_type :
  getServerDefaults "content_type"
  = TrimSpace (index ServerDefaults "content_type").
Proof. reflexivity. Qed.

(** The extension of a path does not begin with white space. *)
Lemma Ext_starts_clean (path : string) :
  starts_clean (Filepath.Ext path) = true.
Proof.
  destruct (Ext_leading_dot path) as [-> | [x ->]]; [reflexivity |].
  destruct x as [|b2 [|b3 x]]; reflexivity.
Qed.

(** C5.  For a path that denotes a regular file, the content type is the
    entry of the content-type table for the extension of the path (the
    suffix that begins at its last dot), with white space removed and in
    lower case, when there is such an entry, and the default media type of
    the configuration otherwise; the look-up succeeds in both cases.  The
    white space removed is the one after the extension: when the suffix
    that begins at the last dot is a string that does not end with white
    space, followed by white space only, the entry looked up is the one of
    that string in lower case. *)
Theorem getContentType_regular_file (GetPathType : FileSystem)
    (CompleteFilePath : string) :
  GetPathType CompleteFilePath = inl FILE_TYPE_PATH ->
  let fileExtension := ToLower (TrimSpace (Filepath.Ext CompleteFilePath)) in
  (forall contentType,
      AllowedContentTypes !! fileExtension = Some contentType ->
      getContentType GetPathType CompleteFilePath = (contentType, true))
  /\ (AllowedContentTypes !! fileExtension = None ->
      getContentType GetPathType CompleteFilePath
      = (getServerDefaults "content_type", true))
  /\ (forall x r,
        Filepath.Ext CompleteFilePath = x +:+ r ->
        all_space r = true -> ends_clean x = true ->
        fileExtension = ToLower x).
Proof.
  intros Hfile fileExtension. unfold getContentType. rewrite Hfile.
  fold fileExtension. split; [| split].
  - intros contentType ->. reflexivity.
  - intros ->. rewrite default_content_type. reflexivity.
  - intros x r Hext Hr Hx. unfold fileExtension.
    pose proof (Ext_starts_clean CompleteFilePath) as Hs.
    rewrite Hext in Hs |- *. rewrite (TrimSpace_split x r Hs Hr Hx).
    reflexivity.
Qed.

(** A path that is no regular file has no content type. *)
Lemma getContentType_not_file (GetPathType : FileSystem)
    (CompleteFilePath : string) :
  GetPathType CompleteFilePath <> inl FILE_TYPE_PATH ->
  getContentType GetPathType CompleteFilePath = ("", false).
Proof.
  intros Hn. unfold getContentType.
  destruct (GetPathType CompleteFilePath) as [[]|]; congruence.
Qed.

End ContentType.

(** A file system in which every path is a regular file.  The extension
    ".PDF" followed by a blank, a tab and a no-break space is looked up as
    ".pdf"; the extension ".xyz" has no entry; with an entry for ".mkv",
    the extension written with the Kelvin sign U+212A for its K is looked
    up as ".mkv". *)
Lemma getContentType_regular_file_witness :
  let padded := "/srv/files/report.PDF " +:+ of_bytes [9; 194; 160]%N in
  let kelvin := "/srv/files/film.M" +:+ of_bytes [226; 132; 170]%N +:+ "V" in
  let video := {| Versions := ∅;
                  AllowedContentTypes := {[ ".mkv" := "video/x-matroska" ]};
                  ServerDefaults := ∅ |} in
  @getContentType sampleTables sampleCase (fun _ => inl FILE_TYPE_PATH) padded
  = ("application/pdf", true)
  /\ @Str.ToLower sampleCase (Str.TrimSpace (Filepath.Ext padded)) = ".pdf"
  /\ @getContentType sampleTables sampleCase (fun _ => inl FILE_TYPE_PATH)
       "/srv/files/unknown.xyz" = ("application/octet-stream", true)
  /\ @getContentType video sampleCase (fun _ => inl FILE_TYPE_PATH) kelvin
     = ("video/x-matroska", true).
Proof.
  cbv zeta. split; [| split; [| split]].
  - apply (proj1 (@getContentType_regular_file sampleTables sampleCase
                    (fun _ => inl FILE_TYPE_PATH) _ eq_refl)).
    reflexivity.
  - apply (proj2 (proj2 (@getContentType_regular_file sampleTables sampleCase
                           (fun _ => inl FILE_TYPE_PATH)
                           ("/srv/files/report.PDF "
                            +:+ of_bytes [9; 194; 160]%N) eq_refl))
             ".PDF" (" " +:+ of_bytes [9; 194; 160]%N));
      reflexivity.
  - apply (proj1 (proj2 (@getContentType_regular_file sampleTables sampleCase
                           (fun _ => inl FILE_TYPE_PATH)
                           "/srv/files/unknown.xyz" eq_refl))).
    reflexivity.
  - apply (proj1 (@getContentType_regular_file
                    {| Versions := ∅;
                       AllowedContentTypes :=
                         {[ ".mkv" := "video/x-matroska" ]};
                       ServerDefaults := ∅ |}
                    sampleCase (fun _ => inl FILE_TYPE_PATH) _ eq_refl)).
    reflexivity.
Defined.

(** ** The server instance *)

Section Singleton.

Lemma NewServer_first (g : Globals) :
  ServerInstance g = None ->
  let p := (NewServer g).1 in
  let g1 := (NewServer g).2 in
  servers g !! p = None
  /\ ServerInstance g1 = Some p
  /\ servers g1 !! p = Some freshServer
  /\ forall q, q <> p -> servers g1 !! q = servers g !! q.
Proof.
  intros Hnil. unfold NewServer. rewrite Hnil. simpl.
  assert (Hfresh : servers g !! fresh (dom (servers g)) = None).
  { apply not_elem_of_dom. apply is_fresh. }
  split; [exact Hfresh |]. split; [reflexivity |].
  split; [apply lookup_insert_eq |].
  intros q Hq. apply lookup_insert_ne. congruence.
Qed.

Lemma NewServer_again (g : Globals) (p : ptr) :
  ServerInstance g = Some p ->
  (NewServer g).1 = p
  /\ ServerInstance (NewServer g).2 = Some p
  /\ servers (NewServer g).2 = servers g.
Proof. intros Hp. unfold NewServer. rewrite Hp. simpl. auto. Qed.

End Singleton.

(** ** Running programs *)

Lemma run_bind {W A B : Type} (env : Env W) (p : Prog A) (f : A -> Prog B)
    (w : W) :
  run env (bind p f) w
  = let '(a, w1, t1) := run env p w in
    let '(b, w2, t2) := run env (f a) w1 in
    (b, w2, (t1 ++ t2)%list).
Proof.
  revert w. induction p as [a | o k IH]; intros w; simpl.
  - destruct (run env (f a) w) as [[b w2] t2]. reflexivity.
  - destruct (env o w) as [r w1]. rewrite IH.
    destruct (run env (k r) w1) as [[a w2] t1].
    destruct (run env (f a) w2) as [[b w3] t2]. reflexivity.
Qed.

(** Unfold the monad of programs down to [bind] and [run]. *)
Ltac prog_unfold :=
  unfold defer, call, mbind, mret, Prog_bind, Prog_ret in *;
  cbn [bind run] in *.

(** Name the answer of the environment to the next operation. *)
Ltac env_step :=
  match goal with
  | |- context [?env ?o ?w] =>
      lazymatch type of env with
      | Env _ =>
          let r := fresh "ans" in
          let w' := fresh "w" in
          destruct (env o w) as [r w']; cbn [Resp] in r; cbn [bind run]
      end
  end.

(** Decide the membership of an event in an explicit trace. *)
Ltac trace_mem H :=
  repeat (apply elem_of_cons in H as [H | H]; [try discriminate H |]);
  try (apply elem_of_nil in H; contradiction).

(** ** The connection handler *)

Section HandleClient.
Context `{Tables} `{Unicode.CaseRanges}.
Context {W : Type} (env : Env W) (w : W) (srv : HttpServer) (c : Conn).
Import Str Strconv.

(** Every run of the connection handler is one of the four runs. *)
Lemma handleClient_handled :
  handled srv c (trace env (handleClient srv c) w).
Proof.
  unfold trace, handleClient, newRequest, newResponse. prog_unfold.
  env_step. env_step. destruct ans0 as [req [e |]]; cbn [bind run].
  - env_step. env_step. apply handled_parse_failure.
  - env_step.
    change (Response.Version (Response.setWriter ans0 ?r))
      with (Response.Version r).
    cbn [Response.Version Response.initialize].
    fold (methodCheck (getResponseVersion (Request.Version req))
            (Request.Method req)).
    destruct (methodCheck _ _) eqn:Hm; cbn [negb bind run].
    + env_step. destruct ans1 as [req' [h | e]]; cbn [bind run].
      * env_step. env_step. apply handled_route. exact Hm.
      * env_step. env_step. env_step. apply handled_not_found. exact Hm.
    + env_step. env_step. apply handled_method_not_allowed. exact Hm.
Qed.

End HandleClient.

Section ConnectionHandler.
Context `{Tables} `{Unicode.CaseRanges}.
Context {W : Type} (env : Env W) (w : W) (srv : HttpServer) (c : Conn).
Import Str Strconv.

Let t : list Event := trace env (handleClient srv c) w.

Lemma methodCheck_false (version method : string) :
  methodCheck version method = false
  <-> ~ method_in_table version (ToUpper (TrimSpace method)).
Proof.
  unfold methodCheck. rewrite <- isMethodAllowed_spec.
  destruct (isMethodAllowed _ _); split; congruence.
Qed.

(** C4.  When the parse of the request returns an error, the handler logs
    the error and returns: the run is the creation of the reader, the
    failed parse, the log entry and the close of the connection.  No
    response is built and no handler is given a response to write to. *)
Theorem handleClient_parse_failure (req0 req : HttpRequest) (e : error) :
  EvRead req0 (req, Some e) ∈ t ->
  (exists rd,
      t = [EvNewReader c rd; EvRead req0 (req, Some e); EvLogError e;
           EvClose c])
  /\ (forall ev, ev ∈ t -> responds ev = false)
  /\ last t = Some (EvClose c).
Proof.
  intros Hin. pose proof (handleClient_handled env w srv c) as Hh.
  fold t in Hh. destruct Hh; trace_mem Hin.
  injection Hin as <- <- <-.
  split; [exists rd; reflexivity |]. split; [| reflexivity].
  intros ev Hev. trace_mem Hev; subst ev; reflexivity.
Qed.

(** C2 (amended).  When the request is parsed and its method, with the
    white space around it removed and in upper case, is not contained in
    the entry of the allowed-methods table for the negotiated response
    version, the handler sets the status 405 and calls the error handler;
    the router is not called, and there is no 404. *)
Theorem handleClient_method_not_allowed (req0 req : HttpRequest) :
  EvRead req0 (req, None) ∈ t ->
  ~ method_in_table (getResponseVersion (Request.Version req))
      (ToUpper (TrimSpace (Request.Method req))) ->
  (exists rd wr,
      t = [EvNewReader c rd; EvRead req0 (req, None); EvNewWriter c wr;
           EvErrorHandler req
             (Response.Status StatusMethodNotAllowed (responseOf req wr));
           EvClose c])
  /\ error_response StatusMethodNotAllowed req t
  /\ ~ route_matching_attempted t
  /\ ~ error_response StatusNotFound req t.
Proof.
  intros Hin Hnot. apply methodCheck_false in Hnot.
  pose proof (handleClient_handled env w srv c) as Hh.
  fold t in Hh. destruct Hh as [| rd rq wr Hm | rd rq wr rq' e Hm
                                | rd rq wr rq' h Hm];
    trace_mem Hin; injection Hin as <- <-; try congruence.
  split; [exists rd, wr; reflexivity |]. split; [| split].
  - eexists. split; [| do 3 right; left]. reflexivity.
  - intros (rt & r & ans & Hr). trace_mem Hr.
  - intros (res & Hs & Hr). trace_mem Hr. injection Hr as ->.
    discriminate Hs.
Qed.

(** C3.  When the request is parsed and its method passes the check, the
    router of the server is called with the request.  When it fails, the
    handler logs the error, sets the status 404 and calls the error
    handler, and no route handler is called.  When it succeeds, the handler
    that it returned is called with the request and the response, and the
    error handler is not called. *)
Theorem handleClient_routing (req0 req : HttpRequest) :
  EvRead req0 (req, None) ∈ t ->
  method_in_table (getResponseVersion (Request.Version req))
    (ToUpper (TrimSpace (Request.Method req))) ->
  exists rd wr req' routed,
    t = ([EvNewReader c rd; EvRead req0 (req, None); EvNewWriter c wr;
          EvMatchRoute (innerRouter srv) req (req', routed)]
         ++ match routed with
            | inr e =>
                [EvLogError e;
                 EvErrorHandler req'
                   (Response.Status StatusNotFound (responseOf req wr))]
            | inl routeHandler =>
                [EvCallHandler routeHandler req' (responseOf req wr)]
            end
         ++ [EvClose c])%list
    /\ match routed with
       | inr e =>
           error_response StatusNotFound req' t
           /\ forall ev, ev ∈ t -> is_route_handler_call ev = false
       | inl routeHandler =>
           EvCallHandler routeHandler req' (responseOf req wr) ∈ t
           /\ forall ev, ev ∈ t -> is_error_handler_call ev = false
       end.
Proof.
  intros Hin Hallowed.
  assert (Hc : methodCheck (getResponseVersion (Request.Version req))
                 (Request.Method req) = true)
    by (apply isMethodAllowed_spec; exact Hallowed).
  pose proof (handleClient_handled env w srv c) as Hh.
  fold t in Hh. destruct Hh as [| rd rq wr Hm | rd rq wr rq' e Hm
                                | rd rq wr rq' h Hm];
    trace_mem Hin; injection Hin as <- <-; try congruence.
  - exists rd, wr, rq', (inr e). split; [reflexivity |]. split.
    + eexists. split; [| do 5 right; left]. reflexivity.
    + intros ev Hev. trace_mem Hev; subst ev; reflexivity.
  - exists rd, wr, rq', (inl h). split; [reflexivity |]. split.
    + do 4 right. left.
    + intros ev Hev. trace_mem Hev; subst ev; reflexivity.
Qed.

(** C7.  On every run of the handler, whatever the environment answers,
    the close of the client connection is the last event, it is the only
    close, and the connection is read for one request only. *)
Theorem handleClient_closes :
  last t = Some (EvClose c)
  /\ List.filter is_close t = [EvClose c]
  /\ length (List.filter is_read t) = 1%nat.
Proof.
  pose proof (handleClient_handled env w srv c) as Hh.
  fold t in Hh. destruct Hh; repeat split; reflexivity.
Qed.

End ConnectionHandler.

(** *** Sample runs of the connection handler *)

(** The parse fails with the error "MalformedRequestLine". *)
Lemma handleClient_parse_failure_witness :
  let env := fixedEnv (sampleRequest "" "", Some "MalformedRequestLine")
               (inr "RouteNotFound") sampleConn in
  let t := trace env (@handleClient sampleTables sampleCase sampleServer
                        sampleConn) tt in
  (exists rd,
      t = [EvNewReader sampleConn rd;
           EvRead (requestOf 1%nat)
             (sampleRequest "" "", Some "MalformedRequestLine");
           EvLogError "MalformedRequestLine"; EvClose sampleConn])
  /\ (forall ev, ev ∈ t -> responds ev = false)
  /\ last t = Some (EvClose sampleConn).
Proof.
  apply (@handleClient_parse_failure sampleTables sampleCase unit).
  vm_compute. right. left.
Defined.

(** A request with the method PUT, which the table does not hold for
    version 1.1, is refused with the status 405.  So is a request with the
    method "get" when the table writes the method as "get": the check is
    made on "GET". *)
Lemma handleClient_method_not_allowed_witness :
  let env := fixedEnv (sampleRequest "PUT" "1.1", None)
               (inr "RouteNotFound") sampleConn in
  let t := trace env (@handleClient sampleTables sampleCase sampleServer
                        sampleConn) tt in
  let env' := fixedEnv (sampleRequest "get" "1.1", None) (inl 5%nat)
                sampleConn in
  let t' := trace env' (@handleClient lowerCaseTables sampleCase sampleServer
                          sampleConn) tt in
  (@error_response StatusMethodNotAllowed (sampleRequest "PUT" "1.1") t
   /\ ~ route_matching_attempted t
   /\ ~ error_response StatusNotFound (sampleRequest "PUT" "1.1") t)
  /\ (@error_response StatusMethodNotAllowed (sampleRequest "get" "1.1") t'
      /\ ~ route_matching_attempted t').
Proof.
  cbv zeta. split.
  - apply (@handleClient_method_not_allowed sampleTables sampleCase unit _ tt
             sampleServer sampleConn (requestOf 1%nat)
             (sampleRequest "PUT" "1.1")).
    + vm_compute. right. left.
    + intros Hm. apply isMethodAllowed_spec in Hm. vm_compute in Hm.
      discriminate Hm.
  - destruct (@handleClient_method_not_allowed lowerCaseTables sampleCase
                unit
                (fixedEnv (sampleRequest "get" "1.1", None) (inl 5%nat)
                   sampleConn)
                tt sampleServer sampleConn (requestOf 1%nat)
                (sampleRequest "get" "1.1")) as (_ & He & Hr & _).
    + vm_compute. right. left.
    + intros Hm. apply isMethodAllowed_spec in Hm. vm_compute in Hm.
      discriminate Hm.
    + split; [exact He | exact Hr].
Defined.

(** A request with the method GET for which the router finds a handler. *)
Lemma handleClient_routing_witness :
  let env := fixedEnv (sampleRequest " get " "1.1", None) (inl 5%nat)
               sampleConn in
  let t := trace env (@handleClient sampleTables sampleCase sampleServer
                        sampleConn) tt in
  exists rd wr req' routed,
    t = ([EvNewReader sampleConn rd;
          EvRead (requestOf 1%nat) (sampleRequest " get " "1.1", None);
          EvNewWriter sampleConn wr;
          EvMatchRoute (innerRouter sampleServer)
            (sampleRequest " get " "1.1") (req', routed)]
         ++ match routed with
            | inr e =>
                [EvLogError e;
                 EvErrorHandler req'
                   (Response.Status StatusNotFound
                      (@responseOf sampleTables
                         (sampleRequest " get " "1.1") wr))]
            | inl routeHandler =>
                [EvCallHandler routeHandler req'
                   (@responseOf sampleTables
                      (sampleRequest " get " "1.1") wr)]
            end
         ++ [EvClose sampleConn])%list
    /\ match routed with
       | inr e =>
           error_response StatusNotFound req' t
           /\ forall ev, ev ∈ t -> is_route_handler_call ev = false
       | inl routeHandler =>
           EvCallHandler routeHandler req'
             (@responseOf sampleTables (sampleRequest " get " "1.1") wr) ∈ t
           /\ forall ev, ev ∈ t -> is_error_handler_call ev = false
       end.
Proof.
  apply (@handleClient_routing sampleTables sampleCase unit).
  - vm_compute. right. left.
  - apply isMethodAllowed_spec. vm_compute. reflexivity.
Defined.

(** The method "get" is not contained in the entry of the table for
    version 1.1, which holds "GET"; the handler lets the request through to
    the router, and answers 404 when no route matches.  The strings are
    ASCII: the run is the same whatever the case tables of Unicode are. *)
Lemma lower_case_method_is_routed (U : Unicode.CaseRanges) :
  ~ @method_not_allowed_as_stated sampleTables U unit
      (fixedEnv (sampleRequest "get" "1.1", None) (inr "RouteNotFound")
         sampleConn)
      tt sampleServer sampleConn.
Proof.
  intros Hc.
  destruct (Hc (requestOf 1%nat) (sampleRequest "get" "1.1"))
    as (_ & Hno & _).
  - vm_compute. right. left.
  - intros Hm. apply isMethodAllowed_spec in Hm. vm_compute in Hm.
    discriminate Hm.
  - apply Hno.
    exists (innerRouter sampleServer), (sampleRequest "get" "1.1"),
      (sampleRequest "get" "1.1", inr "RouteNotFound").
    vm_compute. do 3 right. left.
Qed.

(** C2 as stated fails: the method "get" is not contained in the entry of
    the table for version 1.1, which holds "GET"; the handler lets the
    request through to the router, and answers 404 when no route matches. *)
Lemma method_not_allowed_as_stated_fails :
  ~ @method_not_allowed_as_stated sampleTables sampleCase unit
      (fixedEnv (sampleRequest "get" "1.1", None) (inr "RouteNotFound")
         sampleConn)
      tt sampleServer sampleConn.
Proof. exact (lower_case_method_is_routed sampleCase). Qed.

(** ** Static routes *)

Section StaticRoutes.
Context {W : Type} (env : Env W) (w : W) (srv : HttpServer).
Context (Route TargetPath : string).

(** C8.  One call of [Static] registers the mapping from the route to the
    target under GET first.  When that registration fails, its error is
    returned and nothing else is registered.  When it succeeds, the same
    route and target are registered under HEAD, on the router that the
    first registration left, and the result is the result of that second
    registration. *)
Theorem Static_registers_get_then_head :
  exists rt1 err1,
    let get := EvAddStaticRoute (innerRouter srv) "GET" Route TargetPath
                 (rt1, err1) in
    match err1 with
    | Some e =>
        trace env (Static srv Route TargetPath) w = [get]
        /\ result env (Static srv Route TargetPath) w
           = (Some e, set_innerRouter rt1 srv)
    | None =>
        exists rt2 err2,
          trace env (Static srv Route TargetPath) w
          = [get; EvAddStaticRoute rt1 "HEAD" Route TargetPath (rt2, err2)]
          /\ result env (Static srv Route TargetPath) w
             = (err2, set_innerRouter rt2 srv)
    end.
Proof.
  unfold trace, result, Static. prog_unfold.
  env_step. destruct ans as [rt1 [e |]]; cbn [bind run].
  - exists rt1, (Some e). split; reflexivity.
  - exists rt1, None. cbn [innerRouter set_innerRouter].
    env_step. destruct ans as [rt2 [e |]]; cbn [bind run].
    + exists rt2, (Some e). split; reflexivity.
    + exists rt2, None. split; reflexivity.
Qed.

End StaticRoutes.

(** On a server without routes, one call of [Static] leaves the mapping
    registered under GET and under HEAD, in this order; a second call with
    the same route fails on GET and registers nothing. *)
Example Static_sample :
  let env := fixedEnv (sampleRequest "" "", None) (inr "") sampleConn in
  let '(err, srv1) := result env (Static sampleServer "/files" "/srv") tt in
  err = None
  /\ Routes (innerRouter srv1)
     = [ {| RouteMethod := "GET"; RoutePath := "/files";
            TargetPath := "/srv" |};
         {| RouteMethod := "HEAD"; RoutePath := "/files";
            TargetPath := "/srv" |} ]
  /\ result env (Static srv1 "/files" "/other") tt
     = (Some "DuplicateRoute", srv1)
  /\ length (trace env (Static srv1 "/files" "/other") tt) = 1%nat.
Proof. vm_compute. auto. Qed.

(** ** Listening *)

Section Listening.
Context `{Tables} `{Unicode.CaseRanges}.
Context {W : Type} (env : Env W).
Import Str Strconv.

(** The defaults of the configuration as [Listen] reads them: the port is
    the number that the "port" entry parses to, the host name is the
    "hostname" entry without the white space around it. *)
Lemma listen_defaults :
  getDefaultPort = (Atoi (index ServerDefaults "port")).1
  /\ getServerDefaults "hostname"
     = TrimSpace (index ServerDefaults "hostname").
Proof. split; reflexivity. Qed.

(** The server after [Listen], in terms of the server with its port and
    host set, whatever the network answers. *)
Lemma Listen_result (n : nat) (srv : HttpServer) (PortNumber_ : Z)
    (HostAddress_ : string) (w : W) :
  let port := if PortNumber_ =? 0 then getDefaultPort else PortNumber_ in
  let host := if String.eqb HostAddress_ ""
              then getServerDefaults "hostname"
              else TrimSpace HostAddress_ in
  let srv1 := set_HostAddress host (set_PortNumber port srv) in
  exists ans t',
    trace env (Listen n srv PortNumber_ HostAddress_) w
    = EvNetListen "tcp" (host +:+ ":" +:+ Itoa port) ans :: t'
    /\ match ans with
       | inr _ =>
           result env (Listen n srv PortNumber_ HostAddress_) w
           = (srv1, true)
       | inl server =>
           result env (Listen n srv PortNumber_ HostAddress_) w
           = (set_Socket server srv1, false)
       end.
Proof.
  unfold trace, result, Listen. prog_unfold.
  destruct (PortNumber_ =? 0); destruct (String.eqb HostAddress_ "");
    cbn [HostAddress PortNumber set_HostAddress set_PortNumber];
    env_step; destruct ans as [server | err]; cbn [bind run];
    env_step; try rewrite run_bind;
    try match goal with
        | |- context [run env (acceptLoop ?n ?s ?l) ?w] =>
            destruct (run env (acceptLoop n s l) w) as [[[] w5] t5]
        end;
    cbn [bind run]; eexists _, _; split; reflexivity.
Qed.

(** C10.  After a call of [Listen], the port of the server is the default
    port of the configuration when the port argument is 0 and the port
    argument otherwise; its host is the default host name of the
    configuration when the host argument is the empty string and the host
    argument without the white space around it otherwise.  The listener is
    asked for at that host and port. *)
Theorem Listen_sets_port_and_host (n : nat) (srv : HttpServer)
    (PortNumber_ : Z) (HostAddress_ : string) (w : W) :
  let srv' := (result env (Listen n srv PortNumber_ HostAddress_) w).1 in
  (PortNumber_ = 0 -> PortNumber srv' = getDefaultPort)
  /\ (PortNumber_ <> 0 -> PortNumber srv' = PortNumber_)
  /\ (HostAddress_ = "" -> HostAddress srv' = getServerDefaults "hostname")
  /\ (HostAddress_ <> "" -> HostAddress srv' = TrimSpace HostAddress_)
  /\ exists ans,
       head (trace env (Listen n srv PortNumber_ HostAddress_) w)
       = Some (EvNetListen "tcp"
                 (HostAddress srv' +:+ ":" +:+ Itoa (PortNumber srv')) ans).
Proof.
  destruct (Listen_result n srv PortNumber_ HostAddress_ w)
    as (ans & t' & Ht & Hr).
  cbv zeta. rewrite Ht.
  assert (Hs : exists sk,
             (result env (Listen n srv PortNumber_ HostAddress_) w).1
             = {| HostAddress :=
                    if String.eqb HostAddress_ ""
                    then getServerDefaults "hostname"
                    else TrimSpace HostAddress_;
                  PortNumber :=
                    if PortNumber_ =? 0 then getDefaultPort
                    else PortNumber_;
                  Socket := sk;
                  innerRouter := innerRouter srv |}).
  { destruct ans as [server | err]; rewrite Hr; eexists; reflexivity. }
  destruct Hs as [sk ->]. cbn [HostAddress PortNumber].
  repeat split.
  - intros ->. reflexivity.
  - intros Hp. apply Z.eqb_neq in Hp. rewrite Hp. reflexivity.
  - intros ->. reflexivity.
  - intros Hh. apply String.eqb_neq in Hh. rewrite Hh. reflexivity.
  - exists ans. reflexivity.
Qed.

End Listening.

(** With the default port 8080 and the default host name "localhost": no
    port and no host given, and a port and a padded host given. *)
Lemma Listen_sets_port_and_host_witness :
  let env := fixedEnv (sampleRequest "" "", None) (inr "") sampleConn in
  let srv1 := (result env (@Listen sampleTables 2 sampleServer 0 "") tt).1 in
  let srv2 :=
    (result env (@Listen sampleTables 2 sampleServer 9090 " example.org ")
       tt).1 in
  (PortNumber srv1 = 8080 /\ HostAddress srv1 = "localhost")
  /\ (PortNumber srv2 = 9090 /\ HostAddress srv2 = "example.org").
Proof.
  pose proof (@Listen_sets_port_and_host sampleTables unit
                (fixedEnv (sampleRequest "" "", None) (inr "") sampleConn)
                2 sampleServer 0 "" tt) as (P0 & _ & H0 & _).
  pose proof (@Listen_sets_port_and_host sampleTables unit
                (fixedEnv (sampleRequest "" "", None) (inr "") sampleConn)
                2 sampleServer 9090 " example.org " tt) as (_ & P1 & _ & H1 & _).
  cbv zeta. split; split.
  - rewrite (P0 eq_refl). reflexivity.
  - rewrite (H0 eq_refl). reflexivity.
  - apply P1. discriminate.
  - rewrite H1; [reflexivity | discriminate].
Defined.

(** ** The server instance is a singleton *)

Section SingletonCalls.

Lemma NewServer_calls_again (n : nat) (g : Globals) (p : ptr) :
  ServerInstance g = Some p ->
  (NewServer_calls n g).1 = replicate n p
  /\ ServerInstance (NewServer_calls n g).2 = Some p
  /\ servers (NewServer_calls n g).2 = servers g.
Proof.
  revert g. induction n as [|n IH]; intros g Hp; simpl; [auto |].
  destruct (NewServer_again g p Hp) as (H1 & H2 & H3).
  destruct (NewServer g) as [q g1]. simpl in H1, H2, H3. subst q.
  destruct (IH g1 H2) as (I1 & I2 & I3).
  destruct (NewServer_calls n g1) as [ps g2]. simpl in *.
  rewrite I1, I3, H3. auto.
Qed.

(** C6.  The first call of [NewServer], made while the package holds no
    server instance, allocates a new server with no host, no port, no
    socket and an empty router, records it as the instance of the package
    and returns it.  Every call made while the package holds that instance
    returns the same pointer and leaves the servers as they are, and so do
    any number of calls in a row. *)
Theorem NewServer_singleton (g : Globals) :
  ServerInstance g = None ->
  let p := (NewServer g).1 in
  let g1 := (NewServer g).2 in
  (servers g !! p = None
   /\ servers g1 !! p = Some freshServer
   /\ Routes (innerRouter freshServer) = []
   /\ RouteTree (innerRouter freshServer) = createTree)
  /\ ServerInstance g1 = Some p
  /\ (forall g',
         ServerInstance g' = Some p ->
         (NewServer g').1 = p
         /\ ServerInstance (NewServer g').2 = Some p
         /\ servers (NewServer g').2 = servers g')
  /\ (forall n,
         (NewServer_calls n g1).1 = replicate n p
         /\ servers (NewServer_calls n g1).2 = servers g1).
Proof.
  intros Hnil p g1.
  destruct (NewServer_first g Hnil) as (Hfresh & Hinst & Hsrv & _).
  fold p in Hfresh, Hinst, Hsrv. fold g1 in Hinst, Hsrv.
  split; [auto |]. split; [exact Hinst |]. split.
  - intros g' Hp. apply NewServer_again, Hp.
  - intros n. destruct (NewServer_calls_again n g1 p Hinst) as (H1 & _ & H3).
    auto.
Qed.

End SingletonCalls.

(** From the start of the program: the first call returns a new server,
    and three more calls return the same pointer. *)
Lemma NewServer_singleton_witness :
  let p := (NewServer startup).1 in
  let g1 := (NewServer startup).2 in
  servers g1 !! p = Some freshServer
  /\ ServerInstance g1 = Some p
  /\ (NewServer_calls 3 g1).1 = [p; p; p].
Proof.
  destruct (NewServer_singleton startup eq_refl)
    as ((_ & Hs & _) & Hi & _ & Hn).
  destruct (Hn 3%nat) as [H3 _].
  cbv zeta. split; [exact Hs |]. split; [exact Hi | exact H3].
Defined.

(** * Further properties *)

(** ** The defaults of the configuration *)

Section Defaults.
Context `{Tables} `{Unicode.CaseRanges}.
Import Str Strconv.

(** X1.  A default of the configuration is read under its key without the
    white space around the key, and it is returned without the white space
    around the value: trimming the result again changes nothing.  A key
    that the table does not hold gives the empty string. *)
Theorem getServerDefaults_trimmed (key : string) :
  TrimSpace (getServerDefaults key) = getServerDefaults key
  /\ getServerDefaults (TrimSpace key) = getServerDefaults key
  /\ (ServerDefaults !! TrimSpace key = None -> getServerDefaults key = "").
Proof.
  unfold getServerDefaults. split; [apply TrimSpace_idempotent |]. split.
  - rewrite TrimSpace_idempotent. reflexivity.
  - intros Hnone. unfold index. rewrite Hnone. reflexivity.
Qed.

End Defaults.

(** The key " hostname " reads the same default as "hostname"; the key
    "timeout" is not in the table. *)
Lemma getServerDefaults_trimmed_witness :
  @getServerDefaults sampleTables " hostname " = "localhost"
  /\ @getServerDefaults sampleTables "timeout" = "".
Proof.
  split.
  - rewrite <- (proj1 (proj2 (@getServerDefaults_trimmed sampleTables
                               " hostname "))).
    reflexivity.
  - apply (proj2 (proj2 (@getServerDefaults_trimmed sampleTables "timeout"))).
    reflexivity.
Defined.

(** ** The content type depends on the extension only *)

Section ContentTypeFacts.
Context `{Tables} `{Unicode.CaseRanges}.
Import Str Strconv.

(** X2.  The look-up of a content type succeeds exactly for the paths that
    denote a regular file, and gives the empty string for the others.  For
    two regular files whose extensions are equal up to letter case and
    surrounding white space it gives the same content type. *)
Theorem getContentType_extension_only (GetPathType : FileSystem)
    (p q : string) :
  ((getContentType GetPathType p).2 = true
   <-> GetPathType p = inl FILE_TYPE_PATH)
  /\ ((getContentType GetPathType p).2 = false ->
      getContentType GetPathType p = ("", false))
  /\ (GetPathType p = inl FILE_TYPE_PATH ->
      GetPathType q = inl FILE_TYPE_PATH ->
      EqualFold (TrimSpace (Filepath.Ext p)) (TrimSpace (Filepath.Ext q))
      = true ->
      getContentType GetPathType p = getContentType GetPathType q).
Proof.
  unfold getContentType. split; [| split].
  - destruct (GetPathType p) as [[] | e]; cbn.
    + destruct (AllowedContentTypes !! _); cbn; split; auto.
    + split; [discriminate | discriminate].
    + split; [discriminate | discriminate].
  - destruct (GetPathType p) as [[] | e]; cbn; auto.
    destruct (AllowedContentTypes !! _); cbn; discriminate.
  - intros -> -> Hfold. apply EqualFold_ToLower_eq in Hfold.
    rewrite Hfold. reflexivity.
Qed.

End ContentTypeFacts.

(** The files report.pdf and REPORT.PDF have the same content type. *)
Lemma getContentType_extension_only_witness :
  @getContentType sampleTables sampleCase (fun _ => inl FILE_TYPE_PATH)
    "/srv/files/report.pdf"
  = @getContentType sampleTables sampleCase (fun _ => inl FILE_TYPE_PATH)
      "/srv/Files/REPORT.PDF".
Proof.
  apply (proj2 (proj2 (@getContentType_extension_only sampleTables sampleCase
                         (fun _ => inl FILE_TYPE_PATH)
                         "/srv/files/report.pdf" "/srv/Files/REPORT.PDF")));
    reflexivity.
Defined.

(** ** Decimal numerals *)

Section Numerals.
Import Str Strconv.

Lemma atoiFast_of_uint_acc (d : Decimal.uint) (acc : positive) :
  atoiFast (NilEmpty.string_of_uint d) (Npos acc)
  = Some (Npos (Pos.of_uint_acc d acc)).
Proof.
  revert acc.
  induction d as [| d IH | d IH | d IH | d IH | d IH | d IH | d IH | d IH
                  | d IH | d IH]; intros acc;
    [reflexivity | ..]; cbn [NilEmpty.string_of_uint atoiFast Pos.of_uint_acc];
    match goal with
    | |- context [if ?b then _ else _] =>
        replace b with true by reflexivity
    end;
    match goal with
    | |- atoiFast _ ?n = Some (Npos (Pos.of_uint_acc _ ?a)) =>
        replace n with (Npos a) by (vm_compute digit_val; lia)
    end;
    apply IH.
Qed.

Lemma atoiFast_of_uint (d : Decimal.uint) :
  atoiFast (NilEmpty.string_of_uint d) 0%N = Some (N.of_uint d).
Proof.
  unfold N.of_uint.
  induction d as [| d IH | d IH | d IH | d IH | d IH | d IH | d IH | d IH
                  | d IH | d IH];
    [reflexivity | exact IH | ..];
    cbn [NilEmpty.string_of_uint atoiFast Pos.of_uint];
    match goal with
    | |- context [if ?b then _ else _] =>
        replace b with true by reflexivity
    end;
    apply (atoiFast_of_uint_acc d).
Qed.

(** The digits of a number read back as that number. *)
Lemma atoiFast_N_to_string (n : N) : atoiFast (N_to_string n) 0%N = Some n.
Proof.
  unfold N_to_string. rewrite atoiFast_of_uint.
  f_equal. apply DecimalN.Unsigned.of_to.
Qed.

Lemma atoiFast_ge (s : string) (acc v : N) :
  atoiFast s acc = Some v -> (acc <= v)%N.
Proof.
  revert acc. induction s as [|c s IH]; intros acc; cbn [atoiFast].
  - intros [= <-]. lia.
  - destruct (is_digit c); [| discriminate].
    intros Hv. apply IH in Hv. lia.
Qed.

(** The loop of [ParseUint] agrees with the fast loop as long as the value
    fits in 64 bits. *)
Lemma parseUintLoop_atoiFast (s : string) (acc v : N) :
  atoiFast s acc = Some v -> (v < 2 ^ 64)%N ->
  parseUintLoop s acc = (v, false).
Proof.
  revert acc. induction s as [|c s IH]; intros acc; cbn [atoiFast parseUintLoop].
  - intros [= <-] _. reflexivity.
  - destruct (is_digit c); [| discriminate].
    intros Hv Hlt. pose proof (atoiFast_ge _ _ _ Hv) as Hge.
    cbv zeta.
    replace (2 ^ 64 - 1 <? acc * 10 + digit_val c)%N with false
      by (symmetry; apply N.ltb_ge; lia).
    apply IH; assumption.
Qed.

(** The numeral of a number begins with a digit. *)
Lemma N_to_string_head (n : N) :
  exists c r,
    N_to_string n = String c r
    /\ is_digit c = true /\ is_sign c = false /\ byte_is 45 c = false.
Proof.
  unfold N_to_string.
  assert (Hnil : N.to_uint n <> Decimal.Nil).
  { destruct n as [|p]; [discriminate |].
    apply DecimalPos.Unsigned.to_uint_nonnil. }
  destruct (N.to_uint n); [contradiction | ..];
    cbn [NilEmpty.string_of_uint]; eexists _, _; repeat split; reflexivity.
Qed.

(** [Atoi] of the digits of a number below [2^63], and of these digits
    after a minus sign for a number up to [2^63]. *)
Lemma Atoi_digits (n : N) :
  (n < 2 ^ 63)%N -> Atoi (N_to_string n) = (Z.of_N n, false).
Proof.
  intros Hn.
  destruct (N_to_string_head n) as (c & r & Hs & Hd & Hsg & Hm).
  pose proof (atoiFast_N_to_string n) as Hfast.
  unfold Atoi, ParseInt, ParseUint. rewrite Hs in *.
  rewrite Hsg, Hm.
  destruct (_ && _)%bool.
  - rewrite Hfast. reflexivity.
  - rewrite (parseUintLoop_atoiFast _ _ _ Hfast) by lia.
    cbn [andb negb].
    replace (2 ^ 63 <=? n)%N with false by (symmetry; apply N.leb_gt; lia).
    reflexivity.
Qed.

Lemma Atoi_minus_digits (n : N) :
  (n <= 2 ^ 63)%N ->
  Atoi ("-" +:+ N_to_string n) = ((- Z.of_N n)%Z, false).
Proof.
  intros Hn.
  destruct (N_to_string_head n) as (c & r & Hs & Hd & Hsg & Hm).
  pose proof (atoiFast_N_to_string n) as Hfast.
  rewrite Hs in *.
  change ("-" +:+ String c r) with (String "-" (String c r)).
  unfold Atoi, ParseInt, ParseUint.
  change (is_sign "-") with true. change (byte_is 45 "-") with true.
  cbv iota.
  destruct (_ && _)%bool.
  - rewrite Hfast. reflexivity.
  - rewrite (parseUintLoop_atoiFast _ _ _ Hfast) by lia.
    cbn [andb negb].
    replace (2 ^ 63 <? n)%N with false by (symmetry; apply N.ltb_ge; lia).
    reflexivity.
Qed.

(** [Atoi] reads back what [Itoa] writes, for every number of [int]. *)
Lemma Atoi_Itoa (z : Z) :
  - 2 ^ 63 <= z < 2 ^ 63 -> Atoi (Itoa z) = (z, false).
Proof.
  intros Hz. destruct z as [|p|p]; unfold Itoa.
  - reflexivity.
  - rewrite Atoi_digits by lia. reflexivity.
  - rewrite Atoi_minus_digits by lia. reflexivity.
Qed.

(** A string that begins with a byte that is neither a digit nor a sign
    is no number for [Atoi]. *)
Lemma Atoi_bad_head (c : ascii) (r : string) :
  is_digit c = false -> is_sign c = false ->
  Atoi (String c r) = (0, true).
Proof.
  intros Hd Hs. unfold Atoi, ParseInt, ParseUint.
  rewrite Hs. cbn [atoiFast parseUintLoop]. rewrite Hd.
  destruct (_ && _)%bool; reflexivity.
Qed.

End Numerals.

(** ** The default port *)

Section DefaultPort.
Context `{Tables} `{Unicode.CaseRanges}.
Import Str Strconv.

(** X3. The default port is the number that the "port" entry of the
    defaults writes in decimal, for every number of [int]: what [Itoa]
    writes is read back.  Without a "port" entry the default port is 0, and
    so it is when the entry begins with a byte that is neither a digit nor
    a sign, white space included: the entry is read as it is written and
    is not trimmed. *)
Theorem getDefaultPort_reads_the_numeral :
  (forall n : Z, - 2 ^ 63 <= n < 2 ^ 63 ->
     ServerDefaults !! "port" = Some (Itoa n) -> getDefaultPort = n)
  /\ (ServerDefaults !! "port" = None -> getDefaultPort = 0)
  /\ (forall (c : ascii) (r : string),
        ServerDefaults !! "port" = Some (String c r) ->
        is_digit c = false -> is_sign c = false -> getDefaultPort = 0).
Proof.
  unfold getDefaultPort, index. repeat split.
  - intros n Hn ->. cbn [from_option id]. rewrite Atoi_Itoa by assumption.
    reflexivity.
  - intros ->. reflexivity.
  - intros c r -> Hd Hs. cbn [from_option id]. rewrite Atoi_bad_head by assumption.
    reflexivity.
Qed.

End DefaultPort.

(** Tables whose port is written after a blank. *)
Lemma getDefaultPort_reads_the_numeral_witness :
  @getDefaultPort sampleTables = 8080
  /\ @getDefaultPort http2Tables = 0
  /\ @getDefaultPort
       {| Versions := ∅; AllowedContentTypes := ∅;
          ServerDefaults := {[ "port" := " 8080" ]} |} = 0.
Proof.
  split; [| split].
  - apply (proj1 (@getDefaultPort_reads_the_numeral sampleTables) 8080);
      [lia | reflexivity].
  - apply (proj1 (proj2 (@getDefaultPort_reads_the_numeral http2Tables)));
      reflexivity.
  - eapply (proj2 (proj2 (@getDefaultPort_reads_the_numeral _)));
      reflexivity.
Defined.

(** ** Listening: the host, the listener and the accept loop *)

Section ListenFacts.
Context `{Tables} `{Unicode.CaseRanges}.
Context {W : Type} (env : Env W).
Import Str Strconv.

(** The accept loop, from any state of the environment. *)
Lemma acceptLoop_trace (n : nat) (srv : HttpServer) (sock : Listener)
    (w : W) :
  let t := trace env (acceptLoop n srv sock) w in
  accept_calls t = replicate n sock
  /\ spawned t = (fun c => (srv, c)) <$> accepted t
  /\ logged_errors t
     = (fun e => "Error occurred while accepting a new client: " +:+ e)
         <$> accept_errors t
  /\ logged_infos t
     = (fun c => "A new client - " +:+ RemoteAddr c
                 +:+ " has connected to the server") <$> accepted t.
Proof.
  unfold trace. revert w. induction n as [|n IH]; intros w.
  - cbn. auto.
  - cbn [acceptLoop]. prog_unfold. env_step.
    destruct ans as [c | e]; cbn [bind run].
    + env_step. env_step. specialize (IH w2).
      destruct (run env (acceptLoop n srv sock) w2) as [[a w3] t].
      cbn [snd] in *. destruct IH as (I1 & I2 & I3 & I4).
      unfold accept_calls, spawned, logged_errors, logged_infos, accepted,
        accept_errors in *.
      cbn [omap list_omap Ev fmap list_fmap replicate].
      rewrite I1, I2, I3, I4. auto.
    + env_step. specialize (IH w1).
      destruct (run env (acceptLoop n srv sock) w1) as [[a w3] t].
      cbn [snd] in *. destruct IH as (I1 & I2 & I3 & I4).
      unfold accept_calls, spawned, logged_errors, logged_infos, accepted,
        accept_errors in *.
      cbn [omap list_omap Ev fmap list_fmap replicate].
      rewrite I1, I2, I3, I4. auto.
Qed.

(** The two runs of [Listen]: the listener cannot be set up, or it is and
    the accept loop is entered. *)
Lemma Listen_shape (n : nat) (srv : HttpServer) (PortNumber_ : Z)
    (HostAddress_ : string) (w : W) :
  let port := if PortNumber_ =? 0 then getDefaultPort else PortNumber_ in
  let host := if String.eqb HostAddress_ ""
              then getServerDefaults "hostname"
              else TrimSpace HostAddress_ in
  let srv1 := set_HostAddress host (set_PortNumber port srv) in
  let addr := host +:+ ":" +:+ Itoa port in
  (exists err,
      trace env (Listen n srv PortNumber_ HostAddress_) w
      = [EvNetListen "tcp" addr (inr err);
         EvLogError
           ("Error occurred while setting up listener socket: " +:+ err)]
      /\ result env (Listen n srv PortNumber_ HostAddress_) w
         = (srv1, true))
  \/ (exists sock w',
        trace env (Listen n srv PortNumber_ HostAddress_) w
        = EvNetListen "tcp" addr (inl sock)
          :: EvLogInfo ("Web server is listening at http://" +:+ addr)
          :: trace env (acceptLoop n (set_Socket sock srv1) sock) w'
        /\ result env (Listen n srv PortNumber_ HostAddress_) w
           = (set_Socket sock srv1, false)).
Proof.
  unfold trace, result, Listen. prog_unfold.
  destruct (PortNumber_ =? 0); destruct (String.eqb HostAddress_ "");
    cbn [HostAddress PortNumber set_HostAddress set_PortNumber];
    env_step; destruct ans as [server | err]; cbn [bind run];
    env_step; try rewrite run_bind;
    try match goal with
        | |- context [run env (acceptLoop ?n ?s ?l) ?w] =>
            right; exists l, w;
            destruct (run env (acceptLoop n s l) w) as [[[] w5] t5]
        end;
    cbn [bind run]; rewrite ?app_nil_r; try (left; eexists);
    split; reflexivity.
Qed.

(** X4.  Whatever host is given and whatever the network answers, the
    host that [Listen] stores in the server has no white space around it,
    and the router of the server is the one it had.  A host argument that
    consists of white space only is not the empty string: the host stored
    is then empty, and the default host name is not used.  For any other
    host argument, white space around it makes no difference to what
    [Listen] does. *)
Theorem Listen_host_trimmed_routes_kept (n : nat) (srv : HttpServer)
    (PortNumber_ : Z) (HostAddress_ : string) (w : W) :
  let srv' := (result env (Listen n srv PortNumber_ HostAddress_) w).1 in
  TrimSpace (HostAddress srv') = HostAddress srv'
  /\ innerRouter srv' = innerRouter srv
  /\ (HostAddress_ <> "" -> TrimSpace HostAddress_ = "" ->
      HostAddress srv' = "")
  /\ (TrimSpace HostAddress_ <> "" ->
      Listen n srv PortNumber_ (TrimSpace HostAddress_)
      = Listen n srv PortNumber_ HostAddress_).
Proof.
  cbv zeta.
  assert (Hs : exists sk,
             (result env (Listen n srv PortNumber_ HostAddress_) w).1
             = {| HostAddress :=
                    if String.eqb HostAddress_ ""
                    then getServerDefaults "hostname"
                    else TrimSpace HostAddress_;
                  PortNumber :=
                    if PortNumber_ =? 0 then getDefaultPort
                    else PortNumber_;
                  Socket := sk;
                  innerRouter := innerRouter srv |}).
  { destruct (Listen_shape n srv PortNumber_ HostAddress_ w)
      as [(err & _ & ->) | (sock & w' & _ & ->)]; eexists; reflexivity. }
  destruct Hs as [sk ->]. cbn [HostAddress innerRouter].
  split; [| split; [reflexivity | split]].
  - destruct (String.eqb HostAddress_ "").
    + unfold getServerDefaults. apply TrimSpace_idempotent.
    + apply TrimSpace_idempotent.
  - intros Hne Hblank. apply String.eqb_neq in Hne. rewrite Hne.
    exact Hblank.
  - intros Hne. unfold Listen.
    assert (H1 : String.eqb (TrimSpace HostAddress_) "" = false)
      by (apply String.eqb_neq; exact Hne).
    assert (H2 : String.eqb HostAddress_ "" = false).
    { apply String.eqb_neq. intros ->. apply Hne. reflexivity. }
    rewrite H1, H2, TrimSpace_idempotent. reflexivity.
Qed.


(** X6.  The accept loop of [Listen]: every connection accepted is handed
    to exactly one goroutine of the connection handler, in the order of
    acceptance and for the server as [Listen] has set it up, and is
    announced in the log by its remote address.  A failed accept is logged
    with its cause, starts no goroutine and does not end the loop: with a
    listener set up, each of the [n] iterations followed asks that
    listener, which is the socket of the server, for a connection. *)
Theorem Listen_serves_every_accepted (n : nat) (srv : HttpServer)
    (PortNumber_ : Z) (HostAddress_ : string) (w : W) :
  let t := trace env (Listen n srv PortNumber_ HostAddress_) w in
  let srv' := (result env (Listen n srv PortNumber_ HostAddress_) w).1 in
  spawned t = (fun c => (srv', c)) <$> accepted t
  /\ (forall addr sock t',
        t = EvNetListen "tcp" addr (inl sock) :: t' ->
        Socket srv' = Some sock
        /\ accept_calls t = replicate n sock
        /\ (length (accepted t) + length (accept_errors t))%nat = n
        /\ logged_errors t
           = (fun e => "Error occurred while accepting a new client: "
                       +:+ e) <$> accept_errors t
        /\ logged_infos t
           = ("Web server is listening at http://" +:+ addr)
             :: ((fun c => "A new client - " +:+ RemoteAddr c
                           +:+ " has connected to the server")
                   <$> accepted t)).
Proof.
  cbv zeta.
  destruct (Listen_shape n srv PortNumber_ HostAddress_ w)
    as [(err & -> & ->) | (sock & w' & -> & ->)].
  - split; [reflexivity |]. intros addr sock t' [=].
  - match goal with
    | |- context [acceptLoop n ?s sock] =>
        destruct (acceptLoop_trace n s sock w') as (I1 & I2 & I3 & I4);
        set (tl := trace env (acceptLoop n s sock) w') in *
    end.
    assert (Hlen : (length (accepted tl) + length (accept_errors tl))%nat
                   = length (accept_calls tl)).
    { clear. induction tl as [|ev tl IHt]; [reflexivity |].
      unfold accepted, accept_errors, accept_calls in *.
      destruct ev as [| | | | | | | | | | | |l [c|e] |];
        cbn [omap list_omap length] in *; lia. }
    rewrite I1, length_replicate in Hlen.
    split; [exact I2 |].
    intros addr sock' t' [= <- <- _].
    change (accept_calls (_ :: _ :: tl)) with (accept_calls tl).
    change (accepted (_ :: _ :: tl)) with (accepted tl).
    change (accept_errors (_ :: _ :: tl)) with (accept_errors tl).
    change (logged_errors (_ :: _ :: tl)) with (logged_errors tl).
    change (logged_infos (_ :: ?e :: tl))
      with (("Web server is listening at http://"
             +:+ (if String.eqb HostAddress_ ""
                  then getServerDefaults "hostname"
                  else TrimSpace HostAddress_)
             +:+ ":" +:+ Itoa (if PortNumber_ =? 0 then getDefaultPort
                               else PortNumber_)) :: logged_infos tl).
    rewrite I1, I3, I4. auto.
Qed.

End ListenFacts.

(** A host of one blank gives the empty host and not the default
    "localhost"; blanks around "example.org" make no difference. *)
Lemma Listen_host_trimmed_routes_kept_witness :
  HostAddress
    (result (fixedEnv (sampleRequest "" "", None) (inr "") sampleConn)
       (@Listen sampleTables 2 sampleServer 0 " ") tt).1 = ""
  /\ @Listen sampleTables 2 sampleServer 9090 "example.org"
     = @Listen sampleTables 2 sampleServer 9090 " example.org ".
Proof.
  split.
  - apply (proj1 (proj2 (proj2
      (@Listen_host_trimmed_routes_kept sampleTables unit
         (fixedEnv (sampleRequest "" "", None) (inr "") sampleConn)
         2 sampleServer 0 " " tt))));
      [discriminate | reflexivity].
  - apply (proj2 (proj2 (proj2
      (@Listen_host_trimmed_routes_kept sampleTables unit
         (fixedEnv (sampleRequest "" "", None) (inr "") sampleConn)
         2 sampleServer 9090 " example.org " tt)))).
    vm_compute. discriminate.
Defined.


(** Four iterations in which the first and the third accept fail: the
    second and the fourth connection are served, and the listener is asked
    four times. *)
Lemma Listen_serves_every_accepted_witness :
  let t := trace countingEnv (@Listen sampleTables 4 sampleServer 0 "") 0%nat in
  accept_calls t = [3; 3; 3; 3]%nat
  /\ length (accepted t) = 2%nat
  /\ logged_errors t
     = ["Error occurred while accepting a new client: timeout";
        "Error occurred while accepting a new client: timeout"].
Proof.
  cbv zeta.
  destruct (@Listen_serves_every_accepted sampleTables nat countingEnv 4
              sampleServer 0 "" 0%nat) as [_ Hok].
  edestruct Hok as (_ & Hc & _ & He & _); [vm_compute; reflexivity |].
  split; [exact Hc | split; [reflexivity | exact He]].
Defined.

(** ** Registration of dynamic routes *)

Section RouteRegistration.
Context {W : Type} (env : Env W).
Import Str.

(** X7.  [Get], [Head] and [Post] each make one call of the router of the
    server, [addDynamicRoute], with their own method name, the route path
    without the white space around it and the handler given; they return
    the error that this call answers, and nothing else of the server
    changes.  White space around the route path makes no difference. *)
Theorem dynamic_route_registration (srv : HttpServer) (routePath : string)
    (handlerFunc : Handler) (w : W) :
  Forall
    (fun mr : string * (HttpServer -> string -> Handler
                        -> Prog (option error * HttpServer)) =>
       let (method, register) := mr in
       (exists ans,
           trace env (register srv routePath handlerFunc) w
           = [EvAddDynamicRoute (innerRouter srv) method
                (TrimSpace routePath) handlerFunc ans]
           /\ result env (register srv routePath handlerFunc) w
              = (ans.2, set_innerRouter ans.1 srv))
       /\ register srv (TrimSpace routePath) handlerFunc
          = register srv routePath handlerFunc)
    [("GET", Get); ("HEAD", Head); ("POST", Post)].
Proof.
  repeat apply List.Forall_cons; try apply List.Forall_nil;
    (split;
     [ unfold Get, Head, Post, addRoute, trace, result; prog_unfold;
       env_step; destruct ans as [rt [e |]]; cbn [bind run];
       eexists; split; reflexivity
     | unfold Get, Head, Post, addRoute; rewrite TrimSpace_idempotent;
       reflexivity ]).
Qed.

End RouteRegistration.

(** ** The allowed methods of a version *)

Section AllowedMethods.
Context `{Tables} `{Unicode.CaseRanges}.
Import Str Strconv.

Lemma existsb_ext_in {A : Type} (f g : A -> bool) (l : list A) :
  (forall a, f a = g a) -> existsb f l = existsb g l.
Proof.
  intros Hfg. induction l as [|a l IH]; [reflexivity |].
  cbn [existsb]. rewrite Hfg, IH. reflexivity.
Qed.

Lemma find_ext_all {A : Type} (f g : A -> bool) (l : list A) :
  (forall a, f a = g a) -> List.find f l = List.find g l.
Proof.
  intros Hfg. induction l as [|a l IH]; [reflexivity |].
  cbn [List.find]. rewrite Hfg, IH. reflexivity.
Qed.

(** Comparing with either of two strings that are equal under case
    folding is the same. *)
Lemma EqualFold_congr (k v v' : string) :
  EqualFold v v' = true -> EqualFold k v = EqualFold k v'.
Proof.
  intros Hv.
  destruct (EqualFold k v) eqn:H1, (EqualFold k v') eqn:H2; try reflexivity.
  - rewrite (EqualFold_trans _ _ _ H1 Hv) in H2. discriminate.
  - rewrite EqualFold_sym in Hv.
    rewrite (EqualFold_trans _ _ _ H2 Hv) in H1. discriminate.
Qed.

(** The entry of the one key that equals the version under case
    folding. *)
Lemma methods_of_unique_key (version k : string) (ms : list string) :
  Versions !! k = Some ms ->
  EqualFold k version = true ->
  (forall k', version_key k' -> EqualFold k' version = true -> k' = k) ->
  getAllowedMethods version = Join ms ", "
  /\ forall m, isMethodAllowed version m = true <-> m ∈ ms.
Proof.
  intros Hk He Huniq. split.
  - unfold getAllowedMethods.
    destruct (List.find _ _) as [[k' ms'] |] eqn:Hf.
    + apply find_some in Hf as [Hin He']. cbn [fst] in He'.
      apply list_elem_of_In, elem_of_map_to_list in Hin.
      assert (k' = k) by (apply Huniq; [eexists; exact Hin | exact He']).
      subst k'. congruence.
    + pose proof (find_none _ _ Hf (k, ms)) as Hn. cbn [fst] in Hn.
      rewrite He in Hn. discriminate Hn.
      apply list_elem_of_In, elem_of_map_to_list. exact Hk.
  - intros m. rewrite isMethodAllowed_spec. unfold method_in_table. split.
    + intros (k' & ms' & Hk' & He' & Hm).
      assert (k' = k) by (apply Huniq; [eexists; exact Hk' | exact He']).
      subst k'. congruence.
    + intros Hm. exists k, ms. auto.
Qed.

(** X8.  When one key of the table of versions, and no other, equals the
    version under case folding, the header value that [getAllowedMethods]
    gives is the list of the methods of that key joined by ", ", and
    [isMethodAllowed] accepts exactly the methods of that list: the two
    functions agree, in whatever order the table is visited. *)
Theorem allowed_methods_of_the_key (version k : string) (ms : list string) :
  Versions !! k = Some ms ->
  EqualFold k version = true ->
  (forall k', version_key k' -> EqualFold k' version = true -> k' = k) ->
  getAllowedMethods version = Join ms ", "
  /\ forall m, isMethodAllowed version m = true <-> m ∈ ms.
Proof. exact (methods_of_unique_key version k ms). Qed.

(** X9.  The allowed methods depend on the version only up to letter
    case: for two versions equal under case folding, [getAllowedMethods]
    gives the same string and [isMethodAllowed] the same answer for every
    method.  For a version that no key of the table equals under case
    folding, [getAllowedMethods] gives the empty string and
    [isMethodAllowed] refuses every method. *)
Theorem allowed_methods_version_case (version version' : string) :
  (EqualFold version version' = true ->
   getAllowedMethods version = getAllowedMethods version'
   /\ forall m, isMethodAllowed version m = isMethodAllowed version' m)
  /\ ((forall k, version_key k -> EqualFold k version = false) ->
      getAllowedMethods version = ""
      /\ forall m, isMethodAllowed version m = false).
Proof.
  split.
  - intros Hv. split.
    + unfold getAllowedMethods.
      rewrite (find_ext_all _
                 (fun e : string * list string => EqualFold e.1 version'));
        [reflexivity |].
      intros e. apply EqualFold_congr, Hv.
    + intros m. unfold isMethodAllowed. apply existsb_ext_in.
      intros e. rewrite (EqualFold_congr _ _ _ Hv). reflexivity.
  - intros Hno. split.
    + unfold getAllowedMethods.
      destruct (List.find _ _) as [[k' ms'] |] eqn:Hf; [| reflexivity].
      apply find_some in Hf as [Hin He']. cbn [fst] in He'.
      apply list_elem_of_In, elem_of_map_to_list in Hin.
      rewrite Hno in He' by (eexists; exact Hin). discriminate.
    + intros m. destruct (isMethodAllowed version m) eqn:Hm; [| reflexivity].
      apply isMethodAllowed_spec in Hm as (k' & ms' & Hk' & He' & _).
      rewrite Hno in He' by (eexists; exact Hk'). discriminate.
Qed.

End AllowedMethods.

(** With the versions 1.0 and 1.1, each with GET, HEAD and POST: the
    methods of version 1.1. *)
Lemma allowed_methods_of_the_key_witness :
  @getAllowedMethods sampleTables "1.1" = "GET, HEAD, POST"
  /\ @isMethodAllowed sampleTables "1.1" "HEAD" = true.
Proof.
  destruct (@allowed_methods_of_the_key sampleTables "1.1" "1.1"
              ["GET"; "HEAD"; "POST"]) as [Hg Hm].
  - reflexivity.
  - reflexivity.
  - intros k' Hk' He. apply (@elem_of_versionKeys sampleTables) in Hk'.
    vm_compute in Hk'.
    apply elem_of_cons in Hk' as [-> | Hk'];
      [first [reflexivity | vm_compute in He; discriminate He] |].
    apply elem_of_cons in Hk' as [-> | Hk'];
      [first [reflexivity | vm_compute in He; discriminate He] |].
    apply elem_of_nil in Hk'. contradiction.
  - split; [exact Hg |]. apply Hm. apply elem_of_cons. right.
    apply elem_of_cons. left. reflexivity.
Defined.

(** With the one version "HTTP/1.1": the same methods for "http/1.1" and
    "Http/1.1", and none for "HTTP/2". *)
Lemma allowed_methods_version_case_witness :
  let tables := {| Versions := {[ "HTTP/1.1" := ["GET"; "HEAD"] ]};
                   AllowedContentTypes := ∅; ServerDefaults := ∅ |} in
  @getAllowedMethods tables "http/1.1" = @getAllowedMethods tables "Http/1.1"
  /\ @getAllowedMethods tables "HTTP/2" = ""
  /\ @isMethodAllowed tables "HTTP/2" "GET" = false.
Proof.
  cbv zeta.
  pose proof (@allowed_methods_version_case
                {| Versions := {[ "HTTP/1.1" := ["GET"; "HEAD"] ]};
                   AllowedContentTypes := ∅; ServerDefaults := ∅ |}
                "http/1.1" "Http/1.1") as [Hc _].
  pose proof (@allowed_methods_version_case
                {| Versions := {[ "HTTP/1.1" := ["GET"; "HEAD"] ]};
                   AllowedContentTypes := ∅; ServerDefaults := ∅ |}
                "HTTP/2" "HTTP/2") as [_ Hn].
  destruct (Hc eq_refl) as [Hg _].
  destruct Hn as [Hn1 Hn2].
  { intros k [ms Hk]. cbn in Hk.
    apply lookup_singleton_Some in Hk as [<- _]. reflexivity. }
  split; [exact Hg | split; [exact Hn1 | apply Hn2]].
Defined.

(** ** Negotiation and the method check together *)

Section OneDecimal.
Import Str Strconv.

Lemma is_digit_cases (c : ascii) :
  is_digit c = true ->
  In c ["0"; "1"; "2"; "3"; "4"; "5"; "6"; "7"; "8"; "9"]%char.
Proof.
  destruct c as [[] [] [] [] [] [] [] []]; intros Hd;
    try discriminate Hd; cbn; auto 20.
Qed.

(** A version written as one digit, a point and one digit parses as a
    number that is not negative and that [Sprintf] with the format %.1f
    writes as that version; it holds no white space and no letter. *)
Lemma one_decimal_render (k : string) :
  one_decimal k = true ->
  exists v,
    ParseFloat k = Some v
    /\ Sprintf_1f v = k
    /\ (fgt v (Fin false 0) = false -> v = Fin false 0)
    /\ TrimSpace k = k
    /\ map_bytes lower_byte k = k.
Proof.
  destruct k as [|a [|p [|b [|c k]]]]; try discriminate.
  unfold one_decimal. intros Hk.
  apply andb_true_iff in Hk as [Hk Hb].
  apply andb_true_iff in Hk as [Ha Hp].
  apply byte_is_eq in Hp. subst p.
  apply is_digit_cases in Ha. apply is_digit_cases in Hb.
  cbn [In] in Ha, Hb.
  repeat (destruct Ha as [<- | Ha]; [| try contradiction]);
    repeat (destruct Hb as [<- | Hb]; [| try contradiction]);
    (eexists; split; [vm_compute; reflexivity |];
     split; [vm_compute; reflexivity |];
     split; [vm_compute; intros Hz; first [reflexivity | discriminate Hz] |];
     split; vm_compute; reflexivity).
Qed.

End OneDecimal.

Section NegotiationFacts.
Context `{Tables} `{Unicode.CaseRanges}.
Import Str Strconv.

(** The two outcomes of [getResponseVersion]. *)
Lemma getResponseVersion_cases (v : string) :
  (supported_version_trimmed v /\ getResponseVersion v = v)
  \/ (~ supported_version_trimmed v
      /\ getResponseVersion v = getHighestVersion).
Proof.
  unfold getResponseVersion.
  destruct (existsb _ getAllVersions) eqn:Hc.
  - left. split; [apply isCompatible_spec; exact Hc | reflexivity].
  - right. split; [| reflexivity].
    intros Hs. apply isCompatible_spec in Hs. congruence.
Qed.

Lemma supported_version_trimmed_fold (v v' : string) :
  EqualFold v v' = true ->
  supported_version_trimmed v -> supported_version_trimmed v'.
Proof.
  intros Hv (k & Hk & He). exists k. split; [exact Hk |].
  exact (EqualFold_trans _ _ _ He Hv).
Qed.

(** X10.  Negotiating again changes nothing: the negotiated version of a
    negotiated version is that version.  And the negotiation respects
    letter case: two request versions that are equal under case folding
    get response versions that are equal under case folding. *)
Theorem getResponseVersion_idempotent (v v' : string) :
  getResponseVersion (getResponseVersion v) = getResponseVersion v
  /\ (EqualFold v v' = true ->
      EqualFold (getResponseVersion v) (getResponseVersion v') = true).
Proof.
  split.
  - destruct (getResponseVersion_cases v) as [[_ Hr] | [_ Hr]]; rewrite Hr.
    + exact Hr.
    + destruct (getResponseVersion_cases getHighestVersion)
        as [[_ Hh] | [_ Hh]]; exact Hh.
  - intros Hv.
    destruct (getResponseVersion_cases v) as [[Hs ->] | [Hn ->]],
             (getResponseVersion_cases v') as [[Hs' ->] | [Hn' ->]].
    + exact Hv.
    + destruct Hn'. exact (supported_version_trimmed_fold _ _ Hv Hs).
    + destruct Hn. rewrite EqualFold_sym in Hv.
      exact (supported_version_trimmed_fold _ _ Hv Hs').
    + apply EqualFold_refl.
Qed.

(** X11.  The negotiation compares the request version with the keys of
    the table without the white space around them, the method check with
    the keys as they are written.  So a request version that equals a key
    only once the white space around the key is removed is accepted by the
    negotiation and returned as the response version, and then no method
    at all passes the method check for it and its list of allowed methods
    is empty. *)
Theorem padded_version_key_allows_nothing (k v : string) :
  version_key k ->
  EqualFold (TrimSpace k) v = true ->
  (forall k', version_key k' -> EqualFold k' v = false) ->
  getResponseVersion v = v
  /\ getAllowedMethods (getResponseVersion v) = ""
  /\ forall m, methodCheck (getResponseVersion v) m = false.
Proof.
  intros Hk He Hno.
  assert (Hr : getResponseVersion v = v).
  { destruct (getResponseVersion_cases v) as [[_ Hr] | [Hn _]];
      [exact Hr |].
    destruct Hn. exists k. auto. }
  rewrite Hr. split; [reflexivity |]. split.
  - unfold getAllowedMethods.
    destruct (List.find _ _) as [[k' ms'] |] eqn:Hf; [| reflexivity].
    apply find_some in Hf as [Hin He']. cbn [fst] in He'.
    apply list_elem_of_In, elem_of_map_to_list in Hin.
    rewrite Hno in He' by (eexists; exact Hin). discriminate.
  - intros m. unfold methodCheck.
    destruct (isMethodAllowed v _) eqn:Hm; [| reflexivity].
    apply isMethodAllowed_spec in Hm as (k' & ms' & Hk' & He' & _).
    rewrite Hno in He' by (eexists; exact Hk'). discriminate.
Qed.

(** With every version written as one digit, a point and one digit, the
    negotiated version is the request version when a key equals it, and
    otherwise a key whose number no key exceeds. *)
Lemma one_decimal_negotiated (v : string) :
  Versions <> ∅ ->
  (forall k, version_key k -> one_decimal k = true) ->
  (supported_version v /\ getResponseVersion v = v)
  \/ (~ supported_version v
      /\ exists m,
           version_key (getResponseVersion v)
           /\ ParseFloat (getResponseVersion v) = Some m
           /\ above_all_keys m).
Proof.
  intros Hne Hall.
  assert (Hiff : supported_version_trimmed v <-> supported_version v).
  { split; intros (k & Hk & He); exists k; (split; [exact Hk |]);
      destruct (one_decimal_render k (Hall k Hk)) as (_ & _ & _ & _ & Ht & _);
      [rewrite <- Ht | rewrite Ht]; exact He. }
  destruct (getResponseVersion_cases v) as [[Hs Hr] | [Hn Hr]].
  - left. split; [apply Hiff; exact Hs | exact Hr].
  - right. split; [intros Hs; apply Hn, Hiff, Hs |].
    rewrite Hr.
    destruct getHighestVersion_highest as (m & -> & [Hm Hab]).
    destruct Hm as [-> | (k & Hk & Hp & _)].
    + apply map_choose in Hne as (k0 & ms0 & Hk0).
      assert (Hkey : version_key k0) by (eexists; exact Hk0).
      destruct (one_decimal_render k0 (Hall k0 Hkey))
        as (v0 & Hp0 & Hs0 & Hz & _).
      assert (v0 = Fin false 0) by (apply Hz; exact (Hab k0 v0 Hkey Hp0)).
      subst v0. rewrite Hs0. exists (Fin false 0). auto.
    + destruct (one_decimal_render k (Hall k Hk))
        as (v0 & Hp0 & Hs0 & _).
      assert (v0 = m) by congruence. subst v0.
      rewrite Hs0. exists m. auto.
Qed.

(** X12.  For a table of versions that is not empty and whose keys are
    all written as one digit, a point and one digit, the negotiation is as
    the specification states it: a request version that equals a supported
    version identifier under case folding is returned unchanged, and every
    other request version is answered with the numerically greatest
    supported version identifier. *)
Theorem one_decimal_tables_negotiation (v : string) :
  Versions <> ∅ ->
  (forall k, version_key k -> one_decimal k = true) ->
  negotiation_as_stated v.
Proof.
  intros Hne Hall. unfold negotiation_as_stated, greatest_identifier.
  destruct (one_decimal_negotiated v Hne Hall)
    as [[Hs Hr] | [Hn (m & Hk & Hp & Hab)]]; split.
  - intros _. exact Hr.
  - intros Hn. contradiction.
  - intros Hs. contradiction.
  - intros _. exists m. auto.
Qed.

(** X13.  For such a table, the negotiated version of any request version
    equals one key of the table, and only one: the response version is
    always a supported one, the list that [getAllowedMethods] gives for it
    is the entry of that key, and the method check accepts exactly the
    methods of that entry. *)
Theorem one_decimal_tables_select_one_entry (v : string) :
  Versions <> ∅ ->
  (forall k, version_key k -> one_decimal k = true) ->
  exists k ms,
    Versions !! k = Some ms
    /\ EqualFold k (getResponseVersion v) = true
    /\ (forall k', version_key k' ->
                   EqualFold k' (getResponseVersion v) = true -> k' = k)
    /\ getAllowedMethods (getResponseVersion v) = Join ms ", "
    /\ forall m, isMethodAllowed (getResponseVersion v) m = true <-> m ∈ ms.
Proof.
  intros Hne Hall.
  assert (Hkey : exists k, version_key k
                           /\ EqualFold k (getResponseVersion v) = true).
  { destruct (one_decimal_negotiated v Hne Hall)
      as [[Hs Hr] | [_ (m & Hk & _)]].
    - rewrite Hr. exact Hs.
    - eexists. split; [exact Hk | apply EqualFold_refl]. }
  destruct Hkey as (k & [ms Hk] & He).
  assert (Huniq : forall k', version_key k' ->
                    EqualFold k' (getResponseVersion v) = true -> k' = k).
  { intros k' Hk' He'.
    rewrite EqualFold_sym in He.
    pose proof (EqualFold_trans _ _ _ He' He) as Hkk.
    apply EqualFold_lower_bytes in Hkk.
    destruct (one_decimal_render k' (Hall k' Hk')) as (_ & _ & _ & _ & _ & L1).
    destruct (one_decimal_render k (Hall k (ex_intro _ ms Hk)))
      as (_ & _ & _ & _ & _ & L2).
    congruence. }
  exists k, ms. split; [exact Hk |]. split; [exact He |].
  split; [exact Huniq |].
  apply (methods_of_unique_key _ k ms); assumption.
Qed.

End NegotiationFacts.

(** With the one version "HTTP/1.1": the request versions "http/1.1" and
    "Http/1.1" get response versions that are equal under case folding. *)
Lemma getResponseVersion_idempotent_witness :
  let tables := {| Versions := {[ "HTTP/1.1" := ["GET"; "HEAD"] ]};
                   AllowedContentTypes := ∅; ServerDefaults := ∅ |} in
  Str.EqualFold (@getResponseVersion tables "http/1.1")
    (@getResponseVersion tables "Http/1.1") = true.
Proof.
  cbv zeta.
  apply (proj2 (@getResponseVersion_idempotent
                  {| Versions := {[ "HTTP/1.1" := ["GET"; "HEAD"] ]};
                     AllowedContentTypes := ∅; ServerDefaults := ∅ |}
                  "http/1.1" "Http/1.1")).
  reflexivity.
Defined.

(** With the one version written " 1.1 ": a request for version 1.1 is
    answered with version 1.1, for which GET is refused. *)
Lemma padded_version_key_allows_nothing_witness :
  @getResponseVersion paddedTables "1.1" = "1.1"
  /\ @methodCheck paddedTables sampleCase
       (@getResponseVersion paddedTables "1.1") "GET"
     = false.
Proof.
  destruct (@padded_version_key_allows_nothing paddedTables sampleCase
              " 1.1 " "1.1")
    as (Hr & _ & Hm).
  - eexists. reflexivity.
  - reflexivity.
  - intros k' [ms Hk']. cbn in Hk'.
    apply lookup_singleton_Some in Hk' as [<- _]. reflexivity.
  - split; [exact Hr | apply Hm].
Defined.

Lemma sampleTables_nonempty : @Versions sampleTables <> ∅.
Proof.
  intros He.
  assert (Hx : @Versions sampleTables !! "1.1" = Some ["GET"; "HEAD"; "POST"])
    by reflexivity.
  rewrite He, lookup_empty in Hx. discriminate Hx.
Qed.

Lemma sampleTables_one_decimal (k : string) :
  @version_key sampleTables k -> one_decimal k = true.
Proof.
  intros Hk. apply (@elem_of_versionKeys sampleTables) in Hk.
  vm_compute in Hk.
  repeat (apply elem_of_cons in Hk as [-> | Hk]; [reflexivity |]).
  apply elem_of_nil in Hk. contradiction.
Qed.

(** With the versions 1.0 and 1.1, the negotiation of the request version
    2.0 is as the specification states it. *)
Lemma one_decimal_tables_negotiation_witness :
  @negotiation_as_stated sampleTables "2.0".
Proof.
  apply (@one_decimal_tables_negotiation sampleTables "2.0").
  - exact sampleTables_nonempty.
  - exact sampleTables_one_decimal.
Defined.

(** With the versions 1.0 and 1.1, the negotiated version of the request
    version 2.0 selects one entry of the table. *)
Lemma one_decimal_tables_select_one_entry_witness :
  exists k ms,
    @Versions sampleTables !! k = Some ms
    /\ Str.EqualFold k (@getResponseVersion sampleTables "2.0") = true
    /\ (forall k', @version_key sampleTables k' ->
          Str.EqualFold k' (@getResponseVersion sampleTables "2.0") = true ->
          k' = k)
    /\ @getAllowedMethods sampleTables (@getResponseVersion sampleTables "2.0")
       = Str.Join ms ", "
    /\ forall m,
         @isMethodAllowed sampleTables
           (@getResponseVersion sampleTables "2.0") m = true <-> m ∈ ms.
Proof.
  apply (@one_decimal_tables_select_one_entry sampleTables "2.0").
  - exact sampleTables_nonempty.
  - exact sampleTables_one_decimal.
Defined.

(** ** The connection handler: handlers and the log *)

Section HandlerCalls.
Context `{Tables} `{Unicode.CaseRanges}.
Context {W : Type} (env : Env W) (w : W) (srv : HttpServer) (c : Conn).
Import Str Strconv.

Let t : list Event := trace env (handleClient srv c) w.

(** X14.  On every run of the connection handler either the parse of the
    request fails or exactly one handler is called, a route handler or
    the error handler, never both and never twice; the connection is
    closed right after that handler returns.  What the handler writes to
    the error log is exactly the errors that the parse and the router
    returned, in that order: a refused method is not logged.  It writes
    nothing to the information log. *)
Theorem handleClient_one_handler_call :
  (length (handler_calls t) + length (read_errors t))%nat = 1%nat
  /\ (forall ev, ev ∈ handler_calls t ->
        exists pre, t = (pre ++ [ev; EvClose c])%list)
  /\ logged_errors t = (read_errors t ++ route_errors t)%list
  /\ logged_infos t = [].
Proof.
  pose proof (handleClient_handled env w srv c) as Hh. fold t in Hh.
  destruct Hh as [rd rq e | rd rq wr Hm | rd rq wr rq' e Hm
                  | rd rq wr rq' h Hm];
    (split; [reflexivity |]); (split; [| split; reflexivity]);
    intros ev Hev; cbn in Hev; trace_mem Hev; subst ev.
  - exists [EvNewReader c rd; EvRead (requestOf rd) (rq, None);
            EvNewWriter c wr]. reflexivity.
  - exists [EvNewReader c rd; EvRead (requestOf rd) (rq, None);
            EvNewWriter c wr;
            EvMatchRoute (innerRouter srv) rq (rq', inr e); EvLogError e].
    reflexivity.
  - exists [EvNewReader c rd; EvRead (requestOf rd) (rq, None);
            EvNewWriter c wr;
            EvMatchRoute (innerRouter srv) rq (rq', inl h)].
    reflexivity.
Qed.


End HandlerCalls.


(** ** The server instance and the logger *)

Section ServerInstanceFacts.

(** X16.  After any call of [NewServer] the package is settled: a further
    call returns the same pointer and changes nothing, neither the
    instance, nor a server, nor the logger.  The call leaves the package
    with a logger: the one it had, or the logger to the standard output
    when it had none.  It changes no server that existed before the call.
    And when the instance of the package, if there is one, is an allocated
    server, the pointer returned is one too. *)
Theorem NewServer_settles (g : Globals) :
  let p := (NewServer g).1 in
  let g1 := (NewServer g).2 in
  NewServer g1 = (p, g1)
  /\ SrvLogger g1 = Some (default stdoutLogger (SrvLogger g))
  /\ servers g ⊆ servers g1
  /\ ((forall q, ServerInstance g = Some q -> is_Some (servers g !! q)) ->
      is_Some (servers g1 !! p)).
Proof.
  unfold NewServer.
  destruct (ServerInstance g) as [q |] eqn:Hi;
    destruct (SrvLogger g) as [l |] eqn:Hl; cbn;
    (split; [reflexivity |]); (split; [reflexivity |]); split;
    try reflexivity; try (intros Hq; apply Hq; reflexivity);
    try (apply insert_subseteq, not_elem_of_dom, is_fresh);
    intros _; rewrite lookup_insert_eq; eexists; reflexivity.
Qed.

End ServerInstanceFacts.

(** From the start of the program: the server returned is allocated, and
    a second call changes nothing. *)
Lemma NewServer_settles_witness :
  is_Some (servers (NewServer startup).2 !! (NewServer startup).1)
  /\ NewServer (NewServer startup).2
     = ((NewServer startup).1, (NewServer startup).2)
  /\ SrvLogger (NewServer startup).2 = Some stdoutLogger.
Proof.
  destruct (NewServer_settles startup) as (Hi & Hl & _ & Ha).
  split; [| split; [exact Hi | exact Hl]].
  apply Ha. intros q Hq. discriminate Hq.
Defined.

(** ** The highest version *)

Section HighestVersion.
Context `{Tables} `{Unicode.CaseRanges}.
Import Str Strconv.

Lemma fgt_asym (a b : float64) : fgt a b = true -> fgt b a = false.
Proof.
  unfold fgt. destruct (rank a) as [[i x]|], (rank b) as [[j y]|];
    try discriminate; try reflexivity.
  rewrite orb_true_iff, orb_false_iff, !andb_true_iff, !andb_false_iff,
    !Z.ltb_lt, !Z.ltb_ge, Z.eqb_eq, Z.eqb_neq. lia.
Qed.

(** X17.  The highest version does not depend on the order in which the
    loop visits the keys of the table, an order that Go leaves open.  It
    is the rendering of a number that is not negative and is a number: a
    key that is negative, or that parses as NaN, is never the highest.
    With an empty table it is "0.0". *)
Theorem getHighestVersion_order_and_sign :
  (forall ks, ks ≡ₚ versionKeys ->
     Sprintf_1f (foldl highestStep (Fin false 0) ks) = getHighestVersion)
  /\ (exists m, getHighestVersion = Sprintf_1f m
                /\ m <> NaN /\ fgt (Fin false 0) m = false)
  /\ (Versions = ∅ -> getHighestVersion = "0.0").
Proof.
  split; [exact getHighestVersion_any_order |]. split.
  - destruct getHighestVersion_highest as (m & Hm & [Hc _]).
    exists m. split; [exact Hm |].
    destruct Hc as [-> | (k & _ & _ & Hpos)].
    + split; [discriminate | reflexivity].
    + split; [intros -> ; discriminate Hpos | apply fgt_asym, Hpos].
  - intros He. unfold getHighestVersion, versionKeys.
    rewrite He, map_to_list_empty. reflexivity.
Qed.

End HighestVersion.

(** With the versions 1.0 and 1.1 visited in either order, and with no
    version at all. *)
Lemma getHighestVersion_order_and_sign_witness :
  Strconv.Sprintf_1f
    (foldl highestStep (Strconv.Fin false 0) ["1.0"; "1.1"])
  = @getHighestVersion sampleTables
  /\ Strconv.Sprintf_1f
       (foldl highestStep (Strconv.Fin false 0)
          ["1.1"; "1.0"])
     = @getHighestVersion sampleTables
  /\ @getHighestVersion
       {| Versions := ∅; AllowedContentTypes := ∅; ServerDefaults := ∅ |}
     = "0.0".
Proof.
  split; [| split].
  - apply (proj1 (@getHighestVersion_order_and_sign sampleTables)).
    vm_compute. first [reflexivity | apply perm_swap].
  - apply (proj1 (@getHighestVersion_order_and_sign sampleTables)).
    vm_compute. first [reflexivity | apply perm_swap].
  - apply (proj2 (proj2 (@getHighestVersion_order_and_sign
                           {| Versions := ∅; AllowedContentTypes := ∅;
                              ServerDefaults := ∅ |}))).
    reflexivity.
Defined.
